(** * PDMS2: enrichment of partition JSON and Markdown rendering of chunks

    A shallow embedding of [helpers/enrichments.py] (function
    [enrich_json_with_summaries]) and [helpers/generate_markdown.py]
    (function [generate_markdown]), with the properties of the design
    document stated and proved over the embedding.

    Conventions of the embedding.
    - A JSON object (a Python [dict]) is a [gmap string _]; key order, which
      no function below observes, is not kept.
    - JSON leaves are [scalar]s: null, booleans, integers and strings.
      Floating point numbers are left out: the two functions never read a
      float-valued entry (the [coordinates] of an element).
    - A value stored under a key of an element or of a chunk is a scalar, a
      flat object (the [metadata] of a partition element) or a list of flat
      objects (the [orig_elements] of a chunk).
    - Strings are byte strings holding UTF-8 text.
    - The summarizers are external services: they are variables of a
      section, take and return an explicit world, and either raise or
      return a value.
    - [console.print], [logging.error] and the progress bar do not
      influence the control flow; warnings and errors are recorded in a
      log, progress updates are not modelled.  Writing the JSON file
      appends the written content to the history of the file. *)

From Stdlib Require Import ZArith String Ascii List Lia DecimalString Sorted.
From stdpp Require Import base option list strings gmap fin_maps.

Local Open Scope string_scope.
Local Open Scope Z_scope.

(** ** Python values *)

Module Py.

Inductive scalar : Type :=
  | SNone
  | SBool (b : bool)
  | SInt (z : Z)
  | SStr (s : string).

Inductive value : Type :=
  | VScalar (s : scalar)
  | VDict (d : gmap string scalar)
  | VList (l : list (gmap string scalar)).

(** Exceptions a modelled function can raise.  [Failure] stands for any
    exception (a subclass of [Exception]) raised by a collaborator. *)
Inductive exn : Type :=
  | KeyError (k : string)
  | IndexError
  | TypeError
  | AttributeError
  | Failure (msg : string).

Inductive result (A : Type) : Type :=
  | Ok (a : A)
  | Raise (e : exn).
Arguments Ok {A} a.
Arguments Raise {A} e.

Definition bind {A B} (r : result A) (k : A → result B) : result B :=
  match r with
  | Ok a => k a
  | Raise e => Raise e
  end.

#[global] Instance scalar_eq_dec : EqDecision scalar.
Proof. solve_decision. Defined.

#[global] Instance value_eq_dec : EqDecision value.
Proof. solve_decision. Defined.

#[global] Instance exn_eq_dec : EqDecision exn.
Proof. solve_decision. Defined.

(** Characters that a Rocq string literal cannot hold directly. *)
Definition nl : string := String "010"%char EmptyString.
Definition dq : string := String "034"%char EmptyString.

(** [bool(v)]: truth value testing. *)
Definition truthy_scalar (s : scalar) : bool :=
  match s with
  | SNone => false
  | SBool b => b
  | SInt z => negb (z =? 0)
  | SStr s => negb (String.eqb s "")
  end.

Definition truthy (v : value) : bool :=
  match v with
  | VScalar s => truthy_scalar s
  | VDict d => negb (bool_decide (d = ∅))
  | VList l => negb (bool_decide (l = []))
  end.

(** [a == b] on scalars: [None] only equals [None], strings compare by
    content, and booleans are the integers 0 and 1. *)
Definition as_int (s : scalar) : option Z :=
  match s with
  | SBool b => Some (if b then 1 else 0)
  | SInt z => Some z
  | _ => None
  end.

Definition py_eq (a b : scalar) : bool :=
  match a, b with
  | SNone, SNone => true
  | SStr x, SStr y => String.eqb x y
  | _, _ =>
      match as_int a, as_int b with
      | Some x, Some y => x =? y
      | _, _ => false
      end
  end.

(** [v == 'lit'] for a string literal. *)
Definition eq_str (v : scalar) (lit : string) : bool := py_eq v (SStr lit).

Definition value_eq_str (v : value) (lit : string) : bool :=
  match v with
  | VScalar s => eq_str s lit
  | _ => false
  end.

(** [str(s)], as used by f-strings, on a scalar. *)
Definition str (s : scalar) : string :=
  match s with
  | SNone => "None"
  | SBool true => "True"
  | SBool false => "False"
  | SInt z => NilZero.string_of_int (Z.to_int z)
  | SStr x => x
  end.

(** [d.get(k)] and [d.get(k, default)] on a flat object. *)
Definition get (d : gmap string scalar) (k : string) : scalar :=
  default SNone (d !! k).

Definition get_or (d : gmap string scalar) (k : string) (dflt : string) : scalar :=
  default (SStr dflt) (d !! k).

(** [sep.join(l)]. *)
Fixpoint join (sep : string) (l : list string) : string :=
  match l with
  | [] => ""
  | [x] => x
  | x :: r => x +:+ sep +:+ join sep r
  end.

(** [s.splitlines()] on UTF-8 text.  Line boundaries are LF, CR, CR LF, VT,
    FF, FS, GS, RS, NEL (U+0085, bytes C2 85), LS and PS (U+2028 and U+2029,
    bytes E2 80 A8 and E2 80 A9).  [cur] is the current line, reversed. *)
Definition is_ascii_break (c : ascii) : bool :=
  let n := nat_of_ascii c in
  bool_decide (n = 10 ∨ n = 11 ∨ n = 12 ∨ n = 28 ∨ n = 29 ∨ n = 30)%nat.

Fixpoint rev_string (acc s : string) : string :=
  match s with
  | EmptyString => acc
  | String c r => rev_string (String c acc) r
  end.

Fixpoint splitlines_go (cur : string) (prev_cr : bool) (s : string) : list string :=
  match s with
  | EmptyString =>
      match cur with
      | EmptyString => []
      | _ => [rev_string "" cur]
      end
  | String c r =>
      let n := nat_of_ascii c in
      if (n =? 10)%nat && prev_cr then splitlines_go cur false r
      else if (n =? 13)%nat then rev_string "" cur :: splitlines_go "" true r
      else if is_ascii_break c then rev_string "" cur :: splitlines_go "" false r
      else
        match cur with
        | String c1 cur1 =>
            if (nat_of_ascii c1 =? 194)%nat && (n =? 133)%nat
            then rev_string "" cur1 :: splitlines_go "" false r
            else
              match cur1 with
              | String c2 cur2 =>
                  if (nat_of_ascii c2 =? 226)%nat && (nat_of_ascii c1 =? 128)%nat
                     && ((n =? 168)%nat || (n =? 169)%nat)
                  then rev_string "" cur2 :: splitlines_go "" false r
                  else splitlines_go (String c cur) false r
              | EmptyString => splitlines_go (String c cur) false r
              end
        | EmptyString => splitlines_go (String c cur) false r
        end
  end.

Definition splitlines (s : string) : list string := splitlines_go "" false s.

(** A [for] loop over [l] whose body may raise: the state reached, and the
    exception that ended the loop, if any. *)
Fixpoint for_each {S A : Type} (body : S → A → S * option exn)
    (s : S) (l : list A) : S * option exn :=
  match l with
  | [] => (s, None)
  | x :: rest =>
      match body s x with
      | (s', None) => for_each body s' rest
      | (s', Some e) => (s', Some e)
      end
  end.

End Py.

Import Py.

Abbreviation obj := (gmap string value).

(** ** [helpers/enrichments.py] *)

Module Enrich.

(** What [console.print] and [logging.error] report. *)
Inductive event : Type :=
  | ErrorImage (e : exn)        (* "Error processing image: {e}" *)
  | SkipImage (text : value)    (* "Skipping image without base64 data: {text}" *)
  | ErrorText (e : exn)         (* "Error processing text: {e}" *)
  | SkipText.                   (* "Skipping empty text element" *)

Section WithSummarizers.

(** The state of the outside world (the summarization service), and the two
    collaborators [summarize_image] and [summarize_text]. *)
Context {W : Type}.
Variable summarize_image : W → scalar → W * result scalar.
Variable summarize_text : W → value → W * result scalar.

(** [json_data] is the list loaded from the file; the work lists alias its
    elements, so they are lists of positions in [json_data].  [dumps] is the
    history of the contents written to [json_file], oldest first. *)
Record state : Type := State {
  json_data : list obj;
  dumps : list (list obj);
  log : list event;
  world : W
}.

Definition with_world (w : W) (s : state) : state :=
  State (json_data s) (dumps s) (log s) w.

Definition add_log (ev : event) (s : state) : state :=
  State (json_data s) (dumps s) (log s ++ [ev]) (world s).

(** [item[k] = v] on the element at position [i]. *)
Definition set_item (i : nat) (k : string) (v : value) (s : state) : state :=
  State (alter (λ item : obj, <[k := v]> item) i (json_data s))
        (dumps s) (log s) (world s).

(** [json.dump(json_data, f)] *)
Definition dump (s : state) : state :=
  State (json_data s) (dumps s ++ [json_data s]) (log s) (world s).

(** [[item for item in json_data if p(item['type'])]], as positions counted
    from [i]. *)
Fixpoint select (p : value → bool) (i : nat) (data : list obj) : result (list nat) :=
  match data with
  | [] => Ok []
  | item :: rest =>
      match item !! "type" with
      | None => Raise (KeyError "type")
      | Some t =>
          bind (select p (S i) rest) (λ l, Ok (if p t then i :: l else l))
      end
  end.

Definition is_image (t : value) : bool := value_eq_str t "Image".

Definition is_text (t : value) : bool :=
  value_eq_str t "NarrativeText" || value_eq_str t "Title"
  || value_eq_str t "UncategorizedText".

(** Body of the loop over [imageElements]. *)
Definition image_body (s : state) (i : nat) : state * option exn :=
  match json_data s !! i with
  | None => (s, None)
  | Some item =>
      match item !! "metadata" with
      | None => (s, Some (KeyError "metadata"))
      | Some (VDict metadata) =>
          let image_base64 := get metadata "image_base64" in
          if truthy_scalar image_base64 then
            match summarize_image (world s) image_base64 with
            | (w, Ok summary) =>
                (dump (set_item i "text" (VScalar summary) (with_world w s)), None)
            | (w, Raise e) => (add_log (ErrorImage e) (with_world w s), None)
            end
          else
            (add_log (SkipImage (default (VScalar (SStr "Unnamed image"))
                                         (item !! "text"))) s, None)
      | Some _ => (s, Some AttributeError)
      end
  end.

(** Body of the loop over [textElements]. *)
Definition text_body (s : state) (i : nat) : state * option exn :=
  match json_data s !! i with
  | None => (s, None)
  | Some item =>
      let text_content := default (VScalar SNone) (item !! "text") in
      if truthy text_content then
        match summarize_text (world s) text_content with
        | (w, Ok summary) =>
            (dump (set_item i "summary" (VScalar summary) (with_world w s)), None)
        | (w, Raise e) => (add_log (ErrorText e) (with_world w s), None)
        end
      else (add_log SkipText s, None)
  end.

(** [enrich_json_with_summaries(json_file)], from the content [data] of the
    file and the world [w]: the final state, and the exception that escapes,
    if any. *)
Definition enrich_json_with_summaries (data : list obj) (w : W)
    : state * option exn :=
  let s0 := State data [] [] w in
  match select is_image 0 data with
  | Raise e => (s0, Some e)
  | Ok imageElements =>
      match select is_text 0 data with
      | Raise e => (s0, Some e)
      | Ok textElements =>
          match for_each image_body s0 imageElements with
          | (s1, Some e) => (s1, Some e)
          | (s1, None) => for_each text_body s1 textElements
          end
      end
  end.

(** The content of the file after a run that started from [data]. *)
Definition file_content (data : list obj) (s : state) : list obj :=
  default data (last (dumps s)).

End WithSummarizers.

Arguments state W : clear implicits.

End Enrich.

(** ** [helpers/generate_markdown.py] *)

Module Markdown.

(** [PAGE_FOOTER.format(current_page=current_page)] *)
Definition PAGE_FOOTER (current_page : scalar) : string :=
  nl +:+ nl +:+ "---" +:+ nl +:+ "Page " +:+ str current_page +:+ nl +:+ nl
  +:+ "---" +:+ nl +:+ nl.

(** The pieces of markup, one per f-string of the source. *)
Definition chunk_open (chunk_id chunk_text : string) : string :=
  ("<details style='weight:bold'>" +:+ nl +:+ "<summary>Chunk " +:+ chunk_id
   +:+ "</summary>" +:+ nl +:+ nl)
  +:+ ("<details style='color: #583;weight:bold;padding-left: 1em;'>" +:+ nl
       +:+ "<summary>Chunk Text</summary>" +:+ nl +:+ nl +:+ chunk_text
       +:+ nl +:+ nl +:+ "</details>" +:+ nl +:+ nl)
  +:+ ("<details style='color: #1010e0;weight:bold;padding-left: 1em;'>" +:+ nl
       +:+ "<summary>Original Elements</summary>" +:+ nl +:+ nl).

Definition chunk_close : string :=
  "</details>" +:+ nl +:+ nl +:+ "</details>" +:+ nl +:+ nl.

Definition element_tag (category id : string) : string :=
  "<div style='font-size: 10px; color: lightgrey; display: block;'>"
  +:+ category +:+ " | ID: " +:+ id +:+ "</div>" +:+ nl +:+ nl.

Definition title_md (content : string) : string :=
  "> # " +:+ content +:+ nl +:+ nl.

Definition header_md (content : string) : string :=
  "<div style='background-color: #f7facc;color: #000;padding: 12px 2px 4px; border-bottom: 1px solid #000;'> "
  +:+ content +:+ nl +:+ nl +:+ "</div>".

Definition footer_md (content : string) : string :=
  "<div style='background-color: #f7facc;color: #000;padding: 12px 2px 4px; border-top: 1px solid #000;'> "
  +:+ content +:+ nl +:+ nl +:+ "</div>".

(** The styled paragraph shared by the summary callout and the caption. *)
Definition styled (text : string) : string :=
  "<p style=" +:+ dq +:+ "line-height:.9; bgcolor: #000" +:+ dq
  +:+ "><span style=" +:+ dq
  +:+ "font-family:Tahoma; font-size:.7em; color: #24a8fb" +:+ dq +:+ ">"
  +:+ text +:+ "</span></p>".

Definition summary_callout (summary : string) : string :=
  "| " +:+ styled summary +:+ " |" +:+ nl +:+ "|:--:|" +:+ nl +:+ nl.

Definition list_item_md (content : string) : string :=
  "> - " +:+ content +:+ nl.

Definition image_md (image_format image_base64 caption : string) : string :=
  let summary := styled caption in
  let image_tag :=
    "![IMAGE:](data:image/" +:+ image_format +:+ ";base64," +:+ image_base64
    +:+ ")" in
  "| " +:+ image_tag +:+ "  |" +:+ nl +:+ "|:--:|" +:+ nl +:+ "| " +:+ summary
  +:+ " |" +:+ nl +:+ nl.

Definition image_placeholder (content : string) : string :=
  "> Image: " +:+ content +:+ nl +:+ nl.

(** What [console.print] shows: the warning about a chunk without
    [orig_elements], with [item.get('id', 'unknown')]. *)
Inductive warning : Type :=
  | MissingOrigElements (id : value).

Section WithContainerStr.

(** Python's [str] on a list or a dict.  The renderer formats such a value
    only when a chunk's [id] or [summary] is not a scalar. *)
Variable str_container : value → string.

Definition str_value (v : value) : string :=
  match v with
  | VScalar s => str s
  | _ => str_container v
  end.

(** The markup one original element adds to [page_content], after its tag:
    the type dispatch of the inner loop.  [item] is the enclosing chunk. *)
Definition element_body (item : obj) (orig_element : gmap string scalar)
    : result string :=
  let category := get_or orig_element "type" "Unknown" in
  let content := get_or orig_element "text" "No content" in
  if eq_str category "Title" then Ok (title_md (str content))
  else if eq_str category "Header" then Ok (header_md (str content))
  else if eq_str category "Footer" then Ok (footer_md (str content))
  else if eq_str category "NarrativeText" || eq_str category "UncategorizedText"
          || eq_str category "Title" then
    match item !! "summary" with
    | Some summary => Ok (summary_callout (str_value summary))
    | None => Ok ""
    end
  else if eq_str category "ListItem" then Ok (list_item_md (str content))
  else if eq_str category "Table" || eq_str category "Image" then
    let image_base64 := get orig_element "image" in
    if truthy_scalar image_base64 then
      let image_format :=
        if eq_str (get orig_element "image_mime_type") "image/png"
        then "png" else "jpeg" in
      match orig_element !! "text" with
      | None => Raise (KeyError "text")
      | Some text => Ok (image_md image_format (str image_base64) (str text))
      end
    else
      Ok (image_placeholder
            (if truthy_scalar content then str content else "?Unknown"))
  else Ok "".

(** One iteration of the inner loop. *)
Definition render_element (item : obj) (orig_element : gmap string scalar)
    : result string :=
  let category := get_or orig_element "type" "Unknown" in
  let id := get_or orig_element "id" "No ID" in
  bind (element_body item orig_element)
       (λ body, Ok (element_tag (str category) (str id) +:+ body)).

(** The inner loop: [page_content] grows by the markup of each element. *)
Fixpoint render_elements (item : obj) (page_content : string)
    (l : list (gmap string scalar)) : result string :=
  match l with
  | [] => Ok page_content
  | orig_element :: rest =>
      bind (render_element item orig_element)
           (λ m, render_elements item (page_content +:+ m) rest)
  end.

(** [item['orig_elements'][0]], for a value that is not [None]. *)
Definition first_element (orig_elements : value)
    : result (gmap string scalar) :=
  match orig_elements with
  | VList [] => Raise IndexError
  | VList (e :: _) => Ok e
  | VDict _ => Raise (KeyError "0")
  | VScalar (SStr "") => Raise IndexError
  | VScalar (SStr _) => Raise AttributeError
  | VScalar _ => Raise TypeError
  end.

(** [" > " + "\n> ".join(item['text'].splitlines())] *)
Definition chunk_text_of (item : obj) : result string :=
  match item !! "text" with
  | None => Raise (KeyError "text")
  | Some (VScalar (SStr text)) =>
      Ok (" > " +:+ join (nl +:+ "> ") (splitlines text))
  | Some _ => Raise AttributeError
  end.

Record state : Type := State {
  markdown_content : string;
  current_page : scalar;
  page_content : string;
  console : list warning
}.

(** Is [orig_elements] missing or [None]? *)
Definition no_orig_elements (item : obj) : bool :=
  match item !! "orig_elements" with
  | None | Some (VScalar SNone) => true
  | Some _ => false
  end.

(** The chunk's own markup: what a chunk that is not skipped appends to
    [page_content]. *)
Definition render_chunk (item : obj) (page_content : string) : result string :=
  bind (chunk_text_of item) (λ chunk_text,
  match item !! "id" with
  | None => Raise (KeyError "id")
  | Some chunk_id =>
      let page_content :=
        page_content +:+ chunk_open (str_value chunk_id) chunk_text in
      match item !! "orig_elements" with
      | Some (VList l) =>
          bind (render_elements item page_content l)
               (λ page_content, Ok (page_content +:+ chunk_close))
      | _ => Raise TypeError
      end
  end).

(** Body of the loop over [json_data]. *)
Definition chunk_body (s : state) (item : obj) : state * option exn :=
  if no_orig_elements item then
    (State (markdown_content s) (current_page s) (page_content s)
           (console s ++ [MissingOrigElements
                            (default (VScalar (SStr "unknown")) (item !! "id"))]),
     None)
  else
    match first_element (default (VScalar SNone) (item !! "orig_elements")) with
    | Raise e => (s, Some e)
    | Ok first =>
        let page_number := get first "page_number" in
        let flush :=
          negb (py_eq page_number (current_page s))
          && negb (bool_decide (current_page s = SNone)) in
        let markdown_content :=
          if flush
          then markdown_content s +:+ page_content s
               +:+ PAGE_FOOTER (current_page s)
          else markdown_content s in
        let page_content := if flush then "" else page_content s in
        match render_chunk item page_content with
        | Raise e => (s, Some e)
        | Ok page_content =>
            (State markdown_content page_number page_content (console s), None)
        end
    end.

(** [generate_markdown(json_data)]: what is printed on the console, and
    the Markdown returned or the exception raised.  The parameter [visual]
    of the source is not used by it and is left out. *)
Definition run (json_data : list obj) : state * option exn :=
  for_each chunk_body (State nl SNone "" []) json_data.

Definition finish (s : state) : string :=
  if negb (String.eqb (page_content s) "")
  then markdown_content s +:+ page_content s +:+ PAGE_FOOTER (current_page s)
  else markdown_content s.

Definition generate_markdown (json_data : list obj) : result string :=
  match run json_data with
  | (s, None) => Ok (finish s)
  | (_, Some e) => Raise e
  end.

Definition generate_markdown_console (json_data : list obj) : list warning :=
  console (fst (run json_data)).

End WithContainerStr.

End Markdown.

(** ** Specification vocabulary *)

Module Spec.

Import Enrich.

(** The element's [type] satisfies [p]. *)
Definition has_type (p : value → bool) (a : obj) : bool :=
  match a !! "type" with
  | Some t => p t
  | None => false
  end.

(** [b] is [a] up to the [text] of an Image element and the [summary] of a
    text element. *)
Definition changes_only (a b : obj) : Prop :=
  ∀ k : string,
    b !! k = a !! k
    ∨ (k = "text" ∧ has_type is_image a = true)
    ∨ (k = "summary" ∧ has_type is_text a = true).

(** [l] has the elements of [data], at the same positions, each changed at
    most as [changes_only] allows. *)
Definition frame_of (data l : list obj) : Prop :=
  length l = length data
  ∧ ∀ (i : nat) (a : obj), data !! i = Some a →
      ∃ b : obj, l !! i = Some b ∧ changes_only a b
        ∧ (has_type is_image a = false → has_type is_text a = false → b = a).

(** [d'] is [d] where only key [k] of the elements at the positions [l] may
    differ. *)
Definition touched (k : string) (l : list nat) (d d' : list obj) : Prop :=
  length d' = length d
  ∧ ∀ (i : nat) (a : obj), d !! i = Some a →
      ∃ b : obj, d' !! i = Some b
        ∧ (∀ k' : string, k' ≠ k → b !! k' = a !! k')
        ∧ (i ∉ l → b = a).

(** Every element has a [type], and every Image element a [metadata]
    object. *)
Definition well_shaped (data : list obj) : Prop :=
  Forall (λ a : obj, is_Some (a !! "type")
            ∧ (has_type is_image a = true →
               ∃ md, a !! "metadata" = Some (VDict md))) data.

(** An iteration leaves the store and the file alone, or sets key [k] of
    the element at its position and writes the store to the file. *)
Definition body_spec {W : Type} (k : string)
    (body : state W → nat → state W * option exn) : Prop :=
  ∀ s i s' r, body s i = (s', r) →
    (json_data s' = json_data s ∧ dumps s' = dumps s)
    ∨ (∃ v, json_data s' = alter (λ item : obj, <[k := v]> item) i (json_data s)
          ∧ dumps s' = (dumps s ++ [json_data s'])%list).

End Spec.

Module MdSpec.

Import Markdown.

(** [''.join(l)] *)
Definition concat_str (l : list string) : string := foldr String.append "" l.

(** The number of positions of [s] at which [pat] occurs. *)
Fixpoint occurrences (pat s : string) : nat :=
  ((if String.prefix pat s then 1 else 0)
   + match s with
     | EmptyString => 0
     | String _ rest => occurrences pat rest
     end)%nat.

(** Consecutive chunks of the same page, given as pairs of a page number and
    a markup, gathered page by page. *)
Fixpoint pages (l : list (Z * string)) : list (Z * list string) :=
  match l with
  | [] => []
  | (p, m) :: rest =>
      match pages rest with
      | (q, ms) :: g =>
          if p =? q then (p, m :: ms) :: g else (p, [m]) :: (q, ms) :: g
      | [] => [(p, [m])]
      end
  end.

(** A page of the document: the markup of its chunks, then its footer. *)
Definition page_block (page : Z * list string) : string :=
  concat_str (snd page) +:+ PAGE_FOOTER (SInt (fst page)).

(** The [page_number] of the first original element of a chunk. *)
Definition first_page (c : obj) : scalar :=
  match c !! "orig_elements" with
  | Some (VList (e :: _)) => get e "page_number"
  | _ => SNone
  end.

(** A chunk as the chunking stage makes them: an [id], a [text] that is a
    string, and a non-empty list of original elements, each with a [text]. *)
Definition well_formed_chunk (c : obj) : Prop :=
  is_Some (c !! "id")
  ∧ (∃ t, c !! "text" = Some (VScalar (SStr t)))
  ∧ ∃ e l, c !! "orig_elements" = Some (VList (e :: l))
      ∧ Forall (λ e : gmap string scalar, is_Some (e !! "text")) (e :: l).

(** [orig_elements] is missing or null. *)
Definition lacks_orig_elements (c : obj) : Prop :=
  c !! "orig_elements" = None ∨ c !! "orig_elements" = Some (VScalar SNone).

(** An original element of type NarrativeText or UncategorizedText. *)
Definition narrative_element (e : gmap string scalar) : Prop :=
  e !! "type" = Some (SStr "NarrativeText")
  ∨ e !! "type" = Some (SStr "UncategorizedText").

(** An original element of type Image or Table. *)
Definition visual_element (e : gmap string scalar) : Prop :=
  e !! "type" = Some (SStr "Image") ∨ e !! "type" = Some (SStr "Table").

(** The tag line that opens the markup of every original element. *)
Definition element_tag_of (e : gmap string scalar) : string :=
  element_tag (str (get_or e "type" "Unknown")) (str (get_or e "id" "No ID")).

(** Two states of the renderer that differ at most by the console. *)
Definition same_document (s s' : state) : Prop :=
  markdown_content s = markdown_content s'
  ∧ current_page s = current_page s'
  ∧ page_content s = page_content s'.

Section WithContainerStr.

Variable str_container : value → string.

(** What a chunk that renders adds to [page_content]. *)
Definition chunk_markup (c : obj) : string :=
  match render_chunk str_container c "" with
  | Ok m => m
  | Raise _ => ""
  end.

(** The callout of a chunk: its [summary], styled, if it has one. *)
Definition callout_of (item : obj) : string :=
  match item !! "summary" with
  | Some summary => summary_callout (str_value str_container summary)
  | None => ""
  end.

End WithContainerStr.

End MdSpec.

(** ** Sample files and collaborators *)

Module Sample.

Definition image : obj :=
  {[ "type" := VScalar (SStr "Image");
     "text" := VScalar (SStr "");
     "metadata" := VDict {[ "image_base64" := SStr "iVBORw0KGgo=";
                            "page_number" := SInt 1 ]} ]}.

Definition narrative : obj :=
  {[ "type" := VScalar (SStr "NarrativeText");
     "text" := VScalar (SStr "Rinse the filter after each use.");
     "metadata" := VDict {[ "page_number" := SInt 1 ]} ]}.

Definition image_without_metadata : obj :=
  {[ "type" := VScalar (SStr "Image"); "text" := VScalar (SStr "figure 2") ]}.

Definition image_without_payload : obj :=
  {[ "type" := VScalar (SStr "Image");
     "text" := VScalar (SStr "figure 3");
     "metadata" := VDict {[ "page_number" := SInt 2 ]} ]}.

(** An element that a first run has already summarized. *)
Definition summarized : obj :=
  <[ "summary" := VScalar (SStr "Instructions: revision 0") ]> narrative.

(** Collaborators whose world counts the calls made so far. *)
Definition describe_image (n : nat) (image_base64 : scalar) : nat * result scalar :=
  (S n, Ok (SStr "An image of a pool cleaning robot")).

Definition tag_text (n : nat) (text : value) : nat * result scalar :=
  (S n, Ok (SStr ("Instructions: revision " +:+ str (SInt (Z.of_nat n))))).

Definition broken_image (n : nat) (image_base64 : scalar) : nat * result scalar :=
  (S n, Raise (Failure "connection reset")).

Definition broken_text (n : nat) (text : value) : nat * result scalar :=
  (S n, Raise (Failure "rate limit")).

(** The samples hold scalars only: how a container prints is irrelevant. *)
Definition no_container (v : value) : string := "".

Definition paragraph (id : string) (page : Z) : gmap string scalar :=
  {[ "id" := SStr id; "type" := SStr "NarrativeText";
     "text" := SStr "Rinse the filter."; "page_number" := SInt page ]}.

(** A chunk of one paragraph on page [page]. *)
Definition chunk (id : string) (page : Z) : obj :=
  {[ "id" := VScalar (SStr id);
     "text" := VScalar (SStr "Rinse the filter.");
     "type" := VScalar (SStr "CompositeElement");
     "orig_elements" := VList [paragraph (id +:+ "-1") page] ]}.

(** The chunks of pages 1, 1, 2, 2, 3. *)
Definition five_chunks : list obj :=
  [chunk "a" 1; chunk "b" 1; chunk "c" 2; chunk "d" 2; chunk "e" 3].

(** A chunk with a summary and two paragraphs. *)
Definition two_paragraphs : obj :=
  {[ "id" := VScalar (SStr "k");
     "text" := VScalar (SStr "Rinse the filter. Dry it.");
     "type" := VScalar (SStr "CompositeElement");
     "summary" := VScalar (SStr "Instructions: cleaning");
     "orig_elements" := VList [paragraph "k-1" 1; paragraph "k-2" 1] ]}.

(** An Image element with neither a payload nor a [text] key. *)
Definition bare_image : gmap string scalar :=
  {[ "id" := SStr "i-1"; "type" := SStr "Image"; "page_number" := SInt 1 ]}.

(** An Image element with a PNG payload. *)
Definition png_image : gmap string scalar :=
  {[ "id" := SStr "i-2"; "type" := SStr "Image"; "text" := SStr "A diagram";
     "image" := SStr "iVBORw0KGgo="; "image_mime_type" := SStr "image/png";
     "page_number" := SInt 1 ]}.

(** A chunk without original elements, and one with an empty list. *)
Definition orphan : obj :=
  {[ "id" := VScalar (SStr "o"); "text" := VScalar (SStr "lost");
     "orig_elements" := VScalar SNone ]}.

Definition hollow : obj :=
  {[ "id" := VScalar (SStr "h"); "text" := VScalar (SStr "empty");
     "orig_elements" := VList [] ]}.

End Sample.

(** ** Further vocabulary for the enrichment *)

Module EnrichSpec.

Import Enrich Spec.

(** The element is in one of the two work lists. *)
Definition enrichable (a : obj) : bool :=
  has_type is_image a || has_type is_text a.

(** What a run spends on the file and on the log. *)
Definition effort {W : Type} (s : state W) : nat :=
  (length (dumps s) + length (log s))%nat.

(** An iteration keeps the length of the store and spends at most one
    write or log entry; exactly one when it ends normally at a position of
    the store. *)
Definition body_counts {W : Type} (body : state W → nat → state W * option exn) : Prop :=
  ∀ s i s' r, body s i = (s', r) →
    length (json_data s') = length (json_data s)
    ∧ (effort s' ≤ effort s + 1)%nat
    ∧ (r = None → (i < length (json_data s))%nat → effort s' = (effort s + 1)%nat).

(** What the image pass makes of one element when the image summarizer
    answers [f] whatever the world. *)
Definition image_one (f : scalar → result scalar) (item : obj) : obj :=
  if has_type is_image item then
    match item !! "metadata" with
    | Some (VDict metadata) =>
        if truthy_scalar (get metadata "image_base64") then
          match f (get metadata "image_base64") with
          | Ok summary => <["text" := VScalar summary]> item
          | Raise _ => item
          end
        else item
    | _ => item
    end
  else item.

(** What the text pass makes of one element when the text summarizer
    answers [g] whatever the world. *)
Definition text_one (g : value → result scalar) (item : obj) : obj :=
  if has_type is_text item then
    if truthy (default (VScalar SNone) (item !! "text")) then
      match g (default (VScalar SNone) (item !! "text")) with
      | Ok summary => <["summary" := VScalar summary]> item
      | Raise _ => item
      end
    else item
  else item.

Definition enrich_one (f : scalar → result scalar) (g : value → result scalar)
    (item : obj) : obj :=
  text_one g (image_one f item).

End EnrichSpec.

(** ** More samples *)

Module MoreSamples.

(** A text summarizer whose answer does not depend on the calls made. *)
Definition constant_text (n : nat) (text : value) : nat * result scalar :=
  (S n, Ok (SStr "Instructions: rinse the filter")).

(** An element without a [type]. *)
Definition untyped : obj :=
  {[ "text" := VScalar (SStr "stray"); "metadata" := VDict ∅ ]}.

(** A chunk whose only element has no page number. *)
Definition unpaged (id : string) : obj :=
  {[ "id" := VScalar (SStr id);
     "text" := VScalar (SStr "Rinse the filter.");
     "orig_elements" :=
       VList [ {[ "id" := SStr (id +:+ "-1"); "type" := SStr "NarrativeText";
                  "text" := SStr "Rinse the filter." ]} ] ]}.

(** An Image element with a payload and no [text] key. *)
Definition untitled_image : gmap string scalar :=
  {[ "id" := SStr "i-3"; "type" := SStr "Image"; "image" := SStr "iVBORw0KGgo=";
     "page_number" := SInt 1 ]}.

(** A chunk that holds it after a paragraph. *)
Definition with_untitled_image : obj :=
  {[ "id" := VScalar (SStr "u");
     "text" := VScalar (SStr "See the figure.");
     "orig_elements" := VList [Sample.paragraph "u-1" 1; untitled_image] ]}.

(** A title, and an element of a type the renderer does not know. *)
Definition title : gmap string scalar :=
  {[ "id" := SStr "t-1"; "type" := SStr "Title"; "text" := SStr "Maintenance";
     "page_number" := SInt 1 ]}.

Definition page_break : gmap string scalar :=
  {[ "id" := SStr "b-1"; "type" := SStr "PageBreak"; "text" := SStr "";
     "page_number" := SInt 1 ]}.

Definition titled : obj :=
  {[ "id" := VScalar (SStr "t");
     "text" := VScalar (SStr "Maintenance");
     "summary" := VScalar (SStr "Instructions: cleaning");
     "orig_elements" := VList [title; page_break] ]}.

(** Chunks with original elements but without a [text], or an [id]. *)
Definition textless : obj :=
  {[ "id" := VScalar (SStr "x");
     "orig_elements" := VList [Sample.paragraph "x-1" 1] ]}.

Definition nameless : obj :=
  {[ "text" := VScalar (SStr "Rinse the filter.");
     "orig_elements" := VList [Sample.paragraph "y-1" 1] ]}.

Definition numbered_text : obj :=
  {[ "id" := VScalar (SStr "z"); "text" := VScalar (SInt 7);
     "orig_elements" := VList [Sample.paragraph "z-1" 1] ]}.

End MoreSamples.

(** ** Further vocabulary for the renderer *)

Module MdMore.

Import Markdown MdSpec.

(** The number of places where two consecutive page numbers differ. *)
Fixpoint breaks (pgs : list Z) : nat :=
  match pgs with
  | p :: (q :: _) as rest =>
      ((if Z.eqb p q then 0 else 1) + breaks rest)%nat
  | _ => 0%nat
  end.

(** The warning printed for a chunk without original elements. *)
Definition warning_of (c : obj) : warning :=
  MissingOrigElements (default (VScalar (SStr "unknown")) (c !! "id")).

(** The types the renderer has markup for. *)
Definition known_types : list string :=
  ["Title"; "Header"; "Footer"; "NarrativeText"; "UncategorizedText";
   "ListItem"; "Table"; "Image"].

(** The element's type, ["Unknown"] when it has none, is none of them. *)
Definition unknown_type (e : gmap string scalar) : Prop :=
  Forall (λ name, eq_str (get_or e "type" "Unknown") name = false) known_types.

(** The quoted chunk text, for a text that is a string. *)
Definition quoted (text : string) : string :=
  " > " +:+ join (nl +:+ "> ") (splitlines text).

Section WithContainerStr.

Variable str_container : value → string.

(** The markup of an original element inside the chunk [item]: its tag,
    then what its type calls for. *)
Definition element_markup (item : obj) (e : gmap string scalar) : string :=
  element_tag_of e
  +:+ match element_body str_container item e with
      | Ok m => m
      | Raise _ => ""
      end.

End WithContainerStr.

End MdMore.

(** ** [create_debugging_markdown]: from a chunk file to its Markdown

    What the body of the [try] computes for one file, from the chunks that
    [json.load] returned to the text that is written.  The loop over the
    files catches and prints whatever this raises. *)

Module Debugging.

(** [process_data(data)]: the body of the function is [pass]. *)
Definition process_data (data : value) : value := VScalar SNone.

(** [sub in s] on strings. *)
Fixpoint is_substring (sub s : string) : bool :=
  String.prefix sub s
  || match s with
     | EmptyString => false
     | String _ rest => is_substring sub rest
     end.

(** [key in metadata] *)
Definition contains (metadata : value) (key : string) : result bool :=
  match metadata with
  | VDict d => Ok (bool_decide (is_Some (d !! key)))
  | VList _ => Ok false
  | VScalar (SStr s) => Ok (is_substring key s)
  | VScalar _ => Raise TypeError
  end.

(** [metadata[key]] for a string [key]. *)
Definition subscript (metadata : value) (key : string) : result value :=
  match metadata with
  | VDict d =>
      match d !! key with
      | Some v => Ok (VScalar v)
      | None => Raise (KeyError key)
      end
  | _ => Raise TypeError
  end.

(** What [for x in v] iterates over. *)
Definition iterate (v : value) : result (list value) :=
  match v with
  | VList l => Ok (map VDict l)
  | VDict d => Ok (map (λ kv, VScalar (SStr (fst kv))) (map_to_list d))
  | VScalar (SStr s) =>
      Ok (map (λ c, VScalar (SStr (String c EmptyString))) (list_ascii_of_string s))
  | VScalar _ => Raise TypeError
  end.

(** The loop that fills [output_elements]: its body starts with
    [orig_element.id], an attribute that no JSON value has. *)
Definition output_elements_of (orig_elements : value) : result value :=
  bind (iterate orig_elements) (λ items,
    match items with
    | [] => Ok (VList [])
    | _ :: _ => Raise AttributeError
    end).

(** One iteration of the loop over [chunks]: the [chunk_dict] appended to
    [chunks_data]. *)
Definition convert (chunk : obj) : result obj :=
  match chunk !! "metadata" with
  | None => Raise (KeyError "metadata")
  | Some metadata =>
      match chunk !! "element_id" with
      | None => Raise (KeyError "element_id")
      | Some chunk_id =>
          bind (contains metadata "orig_elements") (λ has,
          bind (if has : bool
                then bind (subscript metadata "orig_elements") (λ data,
                       output_elements_of (process_data data))
                else Ok (VScalar SNone)) (λ output_elements,
            match chunk !! "text" with
            | None => Raise (KeyError "text")
            | Some text =>
                match chunk !! "type" with
                | None => Raise (KeyError "type")
                | Some type =>
                    Ok ({[ "id" := chunk_id; "text" := text; "type" := type;
                           "orig_elements" := output_elements ]} : obj)
                end
            end))
      end
  end.

Fixpoint convert_all (chunks : list obj) : result (list obj) :=
  match chunks with
  | [] => Ok []
  | chunk :: rest =>
      bind (convert chunk) (λ chunk_dict,
        bind (convert_all rest) (λ chunks_data, Ok (chunk_dict :: chunks_data)))
  end.

(** [markdown_content], the text written to the [.md] file. *)
Definition debugging_markdown (str_container : value → string)
    (chunks : list obj) : result string :=
  bind (convert_all chunks) (Markdown.generate_markdown str_container).

(** A chunk with the four keys that are read and a [metadata] without
    [orig_elements]. *)
Definition plain_chunk (chunk : obj) : Prop :=
  (∃ metadata, chunk !! "metadata" = Some metadata
               ∧ contains metadata "orig_elements" = Ok false)
  ∧ is_Some (chunk !! "element_id")
  ∧ is_Some (chunk !! "text")
  ∧ is_Some (chunk !! "type").

End Debugging.

(** ** File names and folders

    [helpers/file_and_folder.py] and the file handling of
    [helpers/pdf_ingest.py].  Paths are POSIX paths; a directory is given
    by what [os.listdir] returns for it, and, where files are renamed, by a
    map from the names of its files to their contents. *)

Module Os.

(** [s.endswith(suffix)] *)
Fixpoint endswith (s suffix : string) : bool :=
  String.eqb suffix s
  || match s with
     | EmptyString => false
     | String _ rest => endswith rest suffix
     end.

Definition slash : ascii := "/"%char.

Fixpoint has_slash (s : string) : bool :=
  match s with
  | EmptyString => false
  | String c rest => Ascii.eqb c slash || has_slash rest
  end.

(** [os.path.join(a, b)] *)
Definition join (a b : string) : string :=
  if String.prefix "/" b then b
  else if String.eqb a "" || endswith a "/" then a +:+ b
  else a +:+ "/" +:+ b.

(** [os.path.basename(p)]: what follows the last slash. *)
Fixpoint basename (p : string) : string :=
  match p with
  | EmptyString => EmptyString
  | String _ rest => if has_slash p then basename rest else p
  end.

(** [s.replace(old, new)]: the occurrences of [old] are replaced from left
    to right, without overlap; [skip] characters of a found occurrence
    remain to be passed over. *)
Fixpoint replace_from (old new : string) (skip : nat) (s : string) : string :=
  match s with
  | EmptyString => EmptyString
  | String c rest =>
      match skip with
      | S k => replace_from old new k rest
      | O =>
          if String.prefix old s
          then new +:+ replace_from old new (String.length old - 1) rest
          else String c (replace_from old new 0 rest)
      end
  end.

Fixpoint intersperse (new s : string) : string :=
  match s with
  | EmptyString => EmptyString
  | String c rest => String c (new +:+ intersperse new rest)
  end.

Definition replace (s old new : string) : string :=
  match old with
  | EmptyString => new +:+ intersperse new s
  | _ => replace_from old new 0 s
  end.

(** [os.rename(old, new)] inside one directory: the file takes the new
    name, replacing a file that has it. *)
Definition rename {A : Type} (fs : gmap string A) (old new : string)
    : gmap string A * option exn :=
  match fs !! old with
  | None => (fs, Some (Failure "FileNotFoundError"))
  | Some content => (<[new := content]> (delete old fs), None)
  end.

End Os.

Module Files.

Import Os.

(** [get_files_with_extension(directory, file_extension)], from the
    result of [os.listdir(directory)]. *)
Definition get_files_with_extension (listing : list string)
    (directory file_extension : string) : list string :=
  map (join directory)
      (List.filter (λ f, endswith f file_extension) listing).

(** The path that [process_pdfs] opens for a listed file:
    [os.path.join(input_dir, os.path.basename(pdf_file))]. *)
Definition pdf_path (input_dir pdf_file : string) : string :=
  join input_dir (basename pdf_file).

(** [cleanup_file_extensions]: the files of the chunk directory whose name
    ends with [.json.json] are renamed, in the order of the listing. *)
Definition chunked_files (listing : list string) : list string :=
  List.filter (λ f, endswith f ".json.json") listing.

Definition new_name (file : string) : string :=
  replace file ".json.json" ".json".

Definition cleanup_file_extensions {A : Type} (fs : gmap string A)
    (listing : list string) : gmap string A * option exn :=
  for_each (λ fs file, rename fs file (new_name file)) fs (chunked_files listing).

(** No dot in the string. *)
Fixpoint dotless (s : string) : bool :=
  match s with
  | EmptyString => true
  | String c rest => negb (Ascii.eqb c "."%char) && dotless rest
  end.

End Files.

(** ** [PDFProcessor.enrich_partitions] *)

Module Ingest.

Import Enrich Os Files.

Section WithSummarizers.

Context {W : Type}.
Variable summarize_image : W → scalar → W * result scalar.
Variable summarize_text : W → value → W * result scalar.

(** The partition directory maps a path to what loading it gives: the
    elements, or the exception of [open] or [json.load].  [errors] are the
    messages printed and logged, one per file that failed. *)
Record state : Type := State {
  disk : gmap string (result (list obj));
  errors : list (string * exn);
  world : W
}.

(** The body of the loop: [enrich_json_with_summaries(json_file)] inside
    [try], and the handler. *)
Definition enrich_file (s : state) (json_file : string) : state :=
  match disk s !! json_file with
  | None =>
      State (disk s) (errors s ++ [(json_file, Failure "FileNotFoundError")])
            (world s)
  | Some (Raise e) => State (disk s) (errors s ++ [(json_file, e)]) (world s)
  | Some (Ok data) =>
      let run := enrich_json_with_summaries summarize_image summarize_text
                   data (world s) in
      State (<[json_file := Ok (file_content data (fst run))]> (disk s))
            (match snd run with
             | Some e => errors s ++ [(json_file, e)]
             | None => errors s
             end)
            (Enrich.world (fst run))
  end.

(** [enrich_partitions], from the listing of the partition directory. *)
Definition enrich_partitions (s : state) (listing : list string)
    (partitioned_dir : string) : state :=
  fold_left enrich_file
            (get_files_with_extension listing partitioned_dir ".json") s.

End WithSummarizers.

Arguments state W : clear implicits.

(** What loading a file gives after the pass, against before. *)
Definition file_frame (before after : option (result (list obj))) : Prop :=
  match before, after with
  | None, None => True
  | Some (Raise e), Some (Raise e') => e = e'
  | Some (Ok data), Some (Ok data') => Spec.frame_of data data'
  | _, _ => False
  end.

End Ingest.

(** ** [supabase_client_module/populate_database.py] *)

Module Populate.

Definition BATCH_SIZE : nat := 3.

(** [range(start, stop, step)] for a positive [step]. *)
Definition py_range (start stop step : nat) : list nat :=
  map (λ k, start + k * step)%nat (seq 0 ((stop - start + step - 1) / step)).

(** [l[i:j]] for [0 <= i <= j]. *)
Definition slice {A : Type} (l : list A) (i j : nat) : list A :=
  take (j - i) (drop i l).

(** The batches that [process_documents_in_batches] hands over. *)
Definition batches {A : Type} (documents : list A) : list (list A) :=
  map (λ i, slice documents i (i + BATCH_SIZE))
      (py_range 0 (length documents) BATCH_SIZE).

(** What is printed for the batch that starts at [i]:
    [i//BATCH_SIZE + 1] and [(total + BATCH_SIZE - 1)//BATCH_SIZE]. *)
Definition progress (total i : nat) : nat * nat :=
  (i / BATCH_SIZE + 1, (total + BATCH_SIZE - 1) / BATCH_SIZE)%nat.

Section WithDatabase.

Context {W D : Type}.

(** [process_documents(batch)]: the world after it, and the exception that
    leaves it, if any. *)
Variable process_documents : W → list D → W * option exn.

(** [process_documents_in_batches(documents)]: the world, what was
    printed, and the exception that ended it, if any. *)
Definition process_documents_in_batches (w : W) (documents : list D)
    : (W * list (nat * nat)) * option exn :=
  for_each (λ (s : W * list (nat * nat)) i,
              let batch := slice documents i (i + BATCH_SIZE) in
              let printed := (snd s ++ [progress (length documents) i])%list in
              match process_documents (fst s) batch with
              | (w', None) => ((w', printed), None)
              | (w', Some e) => ((w', printed), Some e)
              end)
           (w, []) (py_range 0 (length documents) BATCH_SIZE).

End WithDatabase.

(** A document of the loader: its metadata and the text of its page. *)
Record document : Type := Document {
  metadata : gmap string scalar;
  page_content : string
}.

(** [key in unique_documents], for a dict kept as the list of its items
    in insertion order. *)
Definition has_key (unique_documents : list (scalar * document)) (key : scalar)
    : bool :=
  existsb (λ item, py_eq (fst item) key) unique_documents.

(** The loop of [load_documents] over what the loader returned. *)
Fixpoint collect (unique_documents : list (scalar * document))
    (documents : list document) : result (list (scalar * document)) :=
  match documents with
  | [] => Ok unique_documents
  | doc :: rest =>
      match metadata doc !! "source" with
      | None => Raise (KeyError "source")
      | Some pdf_path =>
          if has_key unique_documents pdf_path
          then collect unique_documents rest
          else collect (unique_documents ++ [(pdf_path, doc)]) rest
      end
  end.

(** [load_documents()], from the result of [document_loader.load()]. *)
Definition load_documents (documents : list document) : result (list document) :=
  bind (collect [] documents) (λ unique_documents, Ok (map snd unique_documents)).

(** The path of the file a document comes from, when it is a string. *)
Definition source_of (doc : document) : option string :=
  match metadata doc !! "source" with
  | Some (SStr path) => Some path
  | _ => None
  end.

Section WithProducts.

Context {W : Type}.

(** The two requests on the table [products]: the rows whose
    [product_name] is the given one, and the insertion of a row, which
    answers the rows inserted.  Both may raise. *)
Variable select_product : W → scalar → W * result (list (gmap string scalar)).
Variable insert_row : W → gmap string scalar → W * result (list (gmap string scalar)).

(** [data[0]['product_id']] *)
Definition first_product_id (data : list (gmap string scalar)) : result scalar :=
  match data with
  | [] => Raise IndexError
  | row :: _ =>
      match row !! "product_id" with
      | Some id => Ok id
      | None => Raise (KeyError "product_id")
      end
  end.

(** The body of the [try] of [insert_product]. *)
Definition attempt (w : W) (product_info_copy : gmap string scalar)
    : W * result scalar :=
  match product_info_copy !! "product_name" with
  | None => (w, Raise (KeyError "product_name"))
  | Some product_name =>
      match select_product w product_name with
      | (w1, Raise e) => (w1, Raise e)
      | (w1, Ok (row :: data)) => (w1, first_product_id (row :: data))
      | (w1, Ok []) =>
          match insert_row w1 product_info_copy with
          | (w2, Raise e) => (w2, Raise e)
          | (w2, Ok data) => (w2, first_product_id data)
          end
      end
  end.

(** [for _ in range(attempts)] around it, then the final [raise]. *)
Fixpoint retry (attempts : nat) (w : W) (product_info_copy : gmap string scalar)
    : W * result scalar :=
  match attempts with
  | O => (w, Raise (Failure "Failed to insert product after 3 attempts"))
  | S k =>
      match attempt w product_info_copy with
      | (w', Ok id) => (w', Ok id)
      | (w', Raise _) => retry k w' product_info_copy
      end
  end.

(** [insert_product(supabase_client, product_info)] *)
Definition insert_product (w : W) (product_info : gmap string scalar)
    : W * result scalar :=
  retry 3 w (delete "num_pieces" product_info).

End WithProducts.

End Populate.

(** ** Vocabulary for the loading of the database *)

Module PopulateSpec.

Import Populate.

(** The sources of the documents kept so far. *)
Definition kept_sources (unique_documents : list (scalar * document))
    : list (option string) :=
  map (λ item, source_of (snd item)) unique_documents.

(** What the loop of [load_documents] keeps true: the dict [acc] against
    the documents [done] seen so far. *)
Definition collected (acc : list (scalar * document)) (done : list document)
    : Prop :=
  Forall (λ item, ∃ path, fst item = SStr path
                          ∧ source_of (snd item) = Some path) acc
  ∧ map snd acc `sublist_of` done
  ∧ NoDup (kept_sources acc)
  ∧ (∀ d, d ∈ done → source_of d ∈ kept_sources acc)
  ∧ (∀ item, item ∈ acc →
       ∃ i, done !! i = Some (snd item)
         ∧ ∀ j x, (j < i)%nat → done !! j = Some x →
             source_of x ≠ source_of (snd item)).

End PopulateSpec.

(** ** Samples for the other functions *)

Module OtherSamples.

(** Chunks of a chunk file: one whose metadata has no [orig_elements],
    and one as the chunking stage writes them. *)
Definition bare_chunk : obj :=
  {[ "element_id" := VScalar (SStr "c1");
     "text" := VScalar (SStr "Rinse the filter.");
     "type" := VScalar (SStr "CompositeElement");
     "metadata" := VDict {[ "page_number" := SInt 1 ]} ]}.

Definition packed_chunk : obj :=
  {[ "element_id" := VScalar (SStr "c2");
     "text" := VScalar (SStr "Dry it.");
     "type" := VScalar (SStr "CompositeElement");
     "metadata" := VDict {[ "page_number" := SInt 1;
                            "orig_elements" := SStr "eJzFVMtu2zAQ" ]} ]}.

(** A chunk directory, with the size of each file for content. *)
Definition chunk_dir : gmap string nat :=
  {[ "manual.json.json" := 120%nat; "guide.json.json" := 75%nat;
     "notes.txt" := 9%nat ]}.

Definition clash_dir : gmap string nat :=
  {[ "manual.json.json" := 120%nat; "manual.json" := 40%nat ]}.

(** Pages of two files, as the loader gives them. *)
Definition page (source text : string) : Populate.document :=
  Populate.Document {[ "source" := SStr source ]} text.

Definition loaded : list Populate.document :=
  [page "data/a.pdf" "a, page 1"; page "data/a.pdf" "a, page 2";
   page "data/b.pdf" "b, page 1"; page "data/a.pdf" "a, page 3"].

(** A [process_documents] that counts the documents it is given. *)
Definition count_documents (n : nat) (batch : list nat) : nat * option exn :=
  ((n + length batch)%nat, None).

End OtherSamples.

(** ** Properties of the enrichment *)

Section EnrichProps.

Import Enrich Spec.

Context {W : Type}.
Variable summarize_image : W → scalar → W * result scalar.
Variable summarize_text : W → value → W * result scalar.

Abbreviation image_body := (image_body summarize_image).
Abbreviation text_body := (text_body summarize_text).
Abbreviation enrich := (enrich_json_with_summaries summarize_image summarize_text).

(** *** The work lists *)

Lemma select_spec p i data l :
  select p i data = Ok l →
  ∀ j, j ∈ l → ∃ a, data !! (j - i)%nat = Some a ∧ has_type p a = true ∧ (i ≤ j)%nat.
Proof.
  revert i l. induction data as [|item rest IH]; intros i l; simpl.
  - intros [= <-] j Hj. by apply elem_of_nil in Hj.
  - destruct (item !! "type") as [t|] eqn:Ht; [|done].
    destruct (select p (S i) rest) as [l'|] eqn:Hsel; [|done]. simpl.
    intros [= <-] j Hj.
    assert (Htail : j ∈ l' → ∃ a, (item :: rest) !! (j - i)%nat = Some a
                      ∧ has_type p a = true ∧ (i ≤ j)%nat).
    { intros Hj'. destruct (IH _ _ Hsel j Hj') as (a & Ha & Hp & Hle).
      exists a. split_and!; [|done|lia].
      replace (j - i)%nat with (S (j - S i)) by lia. done. }
    destruct (p t) eqn:Hp; [|by auto].
    apply elem_of_cons in Hj as [->|Hj]; [|by auto].
    exists item. rewrite Nat.sub_diag. split_and!; [done| |done].
    unfold has_type. by rewrite Ht.
Qed.

Lemma select_is_Ok p i data :
  Forall (λ a : obj, is_Some (a !! "type")) data →
  ∃ l, select p i data = Ok l.
Proof.
  intros H. revert i. induction H as [|item rest [t Ht] _ IH]; intros i; simpl.
  - by eexists.
  - rewrite Ht. destruct (IH (S i)) as [l ->]. simpl. by eexists.
Qed.

Lemma select_0_spec p data l j :
  select p 0 data = Ok l → j ∈ l →
  ∃ a, data !! j = Some a ∧ has_type p a = true.
Proof.
  intros Hsel Hj. destruct (select_spec _ _ _ _ Hsel j Hj) as (a & Ha & Hp & _).
  rewrite Nat.sub_0_r in Ha. eauto.
Qed.

(** *** What one iteration does to the store and to the file *)

Lemma image_body_spec : body_spec "text" image_body.
Proof.
  intros s i s' r. unfold Enrich.image_body.
  destruct (json_data s !! i) as [item|]; [|intros [= <- <-]; by left].
  destruct (item !! "metadata") as [[?|md|?]|]; try (intros [= <- <-]; by left).
  destruct (truthy_scalar _); [|intros [= <- <-]; by left].
  destruct (summarize_image _ _) as [w [summary|e]]; intros [= <- <-].
  - right. by exists (VScalar summary).
  - by left.
Qed.

Lemma text_body_spec : body_spec "summary" text_body.
Proof.
  intros s i s' r. unfold Enrich.text_body.
  destruct (json_data s !! i) as [item|]; [|intros [= <- <-]; by left].
  destruct (truthy _); [|intros [= <- <-]; by left].
  destruct (summarize_text _ _) as [w [summary|e]]; intros [= <- <-].
  - right. by exists (VScalar summary).
  - by left.
Qed.

Lemma touched_refl k l d : touched k l d d.
Proof. split; [done|]. intros i a Ha. exists a. by split_and!. Qed.

Lemma touched_alter k v i l d :
  i ∈ l → touched k l d (alter (λ item : obj, <[k := v]> item) i d).
Proof.
  intros Hi. split; [by rewrite length_alter|].
  intros j a Ha. destruct (decide (i = j)) as [->|Hne].
  - exists (<[k := v]> a). rewrite list_lookup_alter_eq, Ha. split_and!; [done| |done].
    intros k' Hk'. by rewrite lookup_insert_ne.
  - exists a. rewrite list_lookup_alter_ne by done. by split_and!.
Qed.

Lemma touched_trans k l1 l2 d d' d'' :
  touched k l1 d d' → touched k l2 d' d'' → touched k (l1 ++ l2) d d''.
Proof.
  intros [Hlen1 H1] [Hlen2 H2]. split; [congruence|].
  intros i a Ha. destruct (H1 i a Ha) as (b & Hb & Hkb & Hib).
  destruct (H2 i b Hb) as (c & Hc & Hkc & Hic).
  exists c. split_and!; [done| |].
  - intros k' Hk'. rewrite Hkc, Hkb; done.
  - intros Hi. rewrite not_elem_of_app in Hi. destruct Hi as [Hi1 Hi2].
    rewrite Hic, Hib; done.
Qed.

Lemma for_each_touched k (body : state W → nat → state W * option exn) :
  body_spec k body →
  ∀ l (s s' : state W) r, for_each body s l = (s', r) →
    touched k l (json_data s) (json_data s')
    ∧ ∀ d, d ∈ dumps s' → d ∈ dumps s ∨ touched k l (json_data s) d.
Proof.
  intros Hbody. induction l as [|i rest IH]; intros s s' r; simpl.
  - intros [= <- <-]. split; [apply touched_refl|by left].
  - destruct (body s i) as [s1 [e|]] eqn:Hb.
    + intros [= <- <-].
      destruct (Hbody _ _ _ _ Hb) as [[Hd Hs]|(v & Hd & Hs)].
      * rewrite Hd, Hs. split; [apply touched_refl|by left].
      * assert (touched k (i :: rest) (json_data s) (json_data s1)).
        { rewrite Hd. apply touched_alter. by left. }
        split; [done|]. intros d. rewrite Hs, elem_of_app, list_elem_of_singleton.
        intros [?| ->]; [by left|by right].
    + intros Hrest. destruct (IH _ _ _ Hrest) as [Hj Hdumps].
      assert (H1 : touched k [i] (json_data s) (json_data s1)
                   ∧ ∀ d, d ∈ dumps s1 → d ∈ dumps s ∨ touched k [i] (json_data s) d).
      { destruct (Hbody _ _ _ _ Hb) as [[Hd Hs]|(v & Hd & Hs)].
        - rewrite Hd, Hs. split; [apply touched_refl|by left].
        - assert (touched k [i] (json_data s) (json_data s1)).
          { rewrite Hd. apply touched_alter. by left. }
          split; [done|]. intros d. rewrite Hs, elem_of_app, list_elem_of_singleton.
          intros [?| ->]; [by left|by right]. }
      destruct H1 as [H1 H1d]. split.
      * apply (touched_trans k [i] rest _ _ _ H1 Hj).
      * intros d Hd. destruct (Hdumps d Hd) as [Hd1|Hd1].
        -- destruct (H1d d Hd1) as [?|Ht]; [by left|right].
           apply (touched_trans k [i] rest _ _ _ Ht (touched_refl _ _ _)).
        -- right. apply (touched_trans k [i] rest _ _ _ H1 Hd1).
Qed.

Lemma frame_of_touched data imgs txts d1 d2 :
  (∀ j, j ∈ imgs → ∃ a, data !! j = Some a ∧ has_type is_image a = true) →
  (∀ j, j ∈ txts → ∃ a, data !! j = Some a ∧ has_type is_text a = true) →
  touched "text" imgs data d1 → touched "summary" txts d1 d2 →
  frame_of data d2.
Proof.
  intros Himgs Htxts [Hlen1 H1] [Hlen2 H2]. split; [congruence|].
  intros i a Ha. destruct (H1 i a Ha) as (b & Hb & Hkb & Hib).
  destruct (H2 i b Hb) as (c & Hc & Hkc & Hic).
  assert (Himg : i ∈ imgs → has_type is_image a = true).
  { intros Hi. destruct (Himgs i Hi) as (a' & Ha' & Hp). congruence. }
  assert (Htxt : i ∈ txts → has_type is_text a = true).
  { intros Hi. destruct (Htxts i Hi) as (a' & Ha' & Hp). congruence. }
  exists c. split_and!; [done| |].
  - intros k. destruct (decide (k = "text")) as [->|Hnt].
    + destruct (decide (i ∈ imgs)) as [Hi|Hi]; [by auto|].
      left. rewrite Hkc by done. by rewrite (Hib Hi).
    + destruct (decide (k = "summary")) as [->|Hns].
      * destruct (decide (i ∈ txts)) as [Hi|Hi]; [by auto|].
        left. rewrite (Hic Hi). by apply Hkb.
      * left. rewrite Hkc, Hkb; done.
  - intros Hni Hnt.
    rewrite Hic, Hib; [done| |]; intros Hi.
    + apply Himg in Hi. congruence.
    + apply Htxt in Hi. congruence.
Qed.

Lemma frame_of_refl data : frame_of data data.
Proof.
  split; [done|]. intros i a Ha. exists a. split_and!; [done| |done].
  intros k. by left.
Qed.

(** *** Exceptions *)

Lemma text_loop_no_raise l (s : state W) : snd (for_each text_body s l) = None.
Proof.
  revert s. induction l as [|i rest IH]; intros s; simpl; [done|].
  assert (Hb : snd (text_body s i) = None).
  { unfold Enrich.text_body. destruct (json_data s !! i); [|done].
    destruct (truthy _); [|done]. by destruct (summarize_text _ _) as [? []]. }
  destruct (text_body s i) as [s1 [e|]]; [done|]. apply IH.
Qed.

Lemma image_loop_no_raise l (s : state W) :
  (∀ i a, i ∈ l → json_data s !! i = Some a →
     ∃ md, a !! "metadata" = Some (VDict md)) →
  snd (for_each image_body s l) = None.
Proof.
  revert s. induction l as [|i rest IH]; intros s Hl; simpl; [done|].
  destruct (image_body s i) as [s1 r] eqn:Hb.
  assert (r = None) as ->.
  { revert Hb. unfold Enrich.image_body.
    destruct (json_data s !! i) as [item|] eqn:Hi; [|by intros [= <- <-]].
    destruct (Hl i item) as [md ->]; [by left|done|].
    destruct (truthy_scalar _); [|by intros [= <- <-]].
    by destruct (summarize_image _ _) as [w [summary|e]]; intros [= <- <-]. }
  apply IH. intros j a Hj Ha.
  destruct (image_body_spec _ _ _ _ Hb) as [[Hd _]|(v & Hd & _)].
  - rewrite Hd in Ha. apply (Hl j a); [by right|done].
  - rewrite Hd, list_lookup_alter in Ha. case_decide as Hij.
    + subst j. destruct (json_data s !! i) as [a0|] eqn:Ha0; [|done].
      simpl in Ha. injection Ha as <-.
      destruct (Hl i a0) as [md Hmd]; [by left|done|].
      exists md. by rewrite lookup_insert_ne.
    + apply (Hl j a); [by right|done].
Qed.

(** *** Splitting the work *)

Lemma select_app p i l1 l2 :
  select p i (l1 ++ l2) =
  bind (select p i l1) (λ a,
    bind (select p (i + length l1) l2) (λ b, Ok (a ++ b)%list)).
Proof.
  revert i. induction l1 as [|item rest IH]; intros i; simpl.
  - rewrite Nat.add_0_r. by destruct (select p i l2).
  - destruct (item !! "type") as [t|]; [|done].
    rewrite IH. replace (S i + length rest)%nat with (i + S (length rest))%nat by lia.
    destruct (select p (S i) rest) as [a|]; [|done]. simpl.
    destruct (select p _ l2) as [b|]; [|done]. simpl.
    by destruct (p t).
Qed.

Lemma for_each_app {S A : Type} (body : S → A → S * option exn) s l1 l2 :
  for_each body s (l1 ++ l2) =
  match for_each body s l1 with
  | (s1, None) => for_each body s1 l2
  | (s1, Some e) => (s1, Some e)
  end.
Proof.
  revert s. induction l1 as [|x rest IH]; intros s; simpl; [done|].
  destruct (body s x) as [s1 [e|]]; [done|]. apply IH.
Qed.

(** *** The claims on [enrich_json_with_summaries] *)

Lemma enrich_frame_run (data : list obj) (w : W) :
  frame_of data (json_data (fst (enrich data w)))
  ∧ ∀ d, d ∈ dumps (fst (enrich data w)) → frame_of data d.
Proof.
  unfold Enrich.enrich_json_with_summaries.
  assert (Hnil : ∀ d : list obj, d ∈ [] → frame_of data d).
  { intros d Hd. by apply elem_of_nil in Hd. }
  destruct (select is_image 0 data) as [imgs|] eqn:Himgs; simpl;
    [|split; [apply frame_of_refl|done]].
  destruct (select is_text 0 data) as [txts|] eqn:Htxts; simpl;
    [|split; [apply frame_of_refl|done]].
  pose proof (λ j, select_0_spec _ _ _ j Himgs) as Hi.
  pose proof (λ j, select_0_spec _ _ _ j Htxts) as Ht.
  destruct (for_each image_body (State data [] [] w) imgs) as [s1 r1] eqn:H1.
  destruct (for_each_touched _ _ image_body_spec _ _ _ _ H1) as [Hj1 Hd1].
  simpl in Hj1, Hd1.
  assert (Hd1' : ∀ d, d ∈ dumps s1 → frame_of data d).
  { intros d Hd. destruct (Hd1 d Hd) as [Hd'|Htd]; [by apply elem_of_nil in Hd'|].
    eapply frame_of_touched; [exact Hi|exact Ht|exact Htd|apply touched_refl]. }
  destruct r1 as [e|]; simpl.
  { split; [|done].
    eapply frame_of_touched; [exact Hi|exact Ht|exact Hj1|apply touched_refl]. }
  destruct (for_each text_body s1 txts) as [s2 r2] eqn:H2.
  destruct (for_each_touched _ _ text_body_spec _ _ _ _ H2) as [Hj2 Hd2].
  simpl. split.
  - eapply frame_of_touched; [exact Hi|exact Ht|exact Hj1|exact Hj2].
  - intros d Hd. destruct (Hd2 d Hd) as [Hd'|Htd]; [by apply Hd1'|].
    eapply frame_of_touched; [exact Hi|exact Ht|exact Hj1|exact Htd].
Qed.



(** C9. The [metadata] of an Image element is read outside the [try]: an
    Image element without a [metadata] key, reached after Image elements
    that pass, ends the whole run with a [KeyError].  Nothing after it is
    enriched, and no text element at all. *)
Theorem enrich_missing_metadata_aborts (pre post : list obj) (item : obj) (w : W) :
  well_shaped pre →
  Forall (λ a : obj, is_Some (a !! "type")) post →
  has_type is_image item = true →
  item !! "metadata" = None →
  ∃ s, enrich (pre ++ item :: post) w = (s, Some (KeyError "metadata"))
    ∧ ∀ i a, ((pre ++ item :: post)%list : list obj) !! i = Some a →
        (length pre ≤ i)%nat ∨ has_type is_image a = false →
        json_data s !! i = Some a.
Proof.
  intros Hpre Hpost Himg Hmeta. unfold Enrich.enrich_json_with_summaries.
  assert (Htypes_pre : Forall (λ a : obj, is_Some (a !! "type")) pre).
  { eapply Forall_impl; [exact Hpre|]. by intros a [? _]. }
  assert (Hitem : is_Some (item !! "type")).
  { unfold has_type in Himg. by destruct (item !! "type"). }
  destruct (select_is_Ok is_image 0 pre Htypes_pre) as [sel_pre Hsel_pre].
  destruct (select_is_Ok is_image (S (length pre)) post Hpost) as [sel_post Hsel_post].
  assert (Himgs : select is_image 0 (pre ++ item :: post)%list
                  = Ok (sel_pre ++ length pre :: sel_post)%list).
  { rewrite select_app, Hsel_pre. simpl. unfold has_type in Himg.
    destruct (item !! "type") as [t|]; [|done]. rewrite Hsel_post. simpl.
    by rewrite Himg. }
  destruct (select_is_Ok is_text 0 (pre ++ item :: post)) as [txts Htxts].
  { apply Forall_app. split; [done|]. by constructor. }
  rewrite Himgs, Htxts, for_each_app.
  set (s0 := State (pre ++ item :: post)%list [] [] w).
  assert (Hin_pre : ∀ j, j ∈ sel_pre →
            ∃ a, pre !! j = Some a ∧ has_type is_image a = true).
  { intros j Hj. by apply (select_0_spec _ _ _ _ Hsel_pre). }
  pose proof (image_loop_no_raise sel_pre s0) as Hno.
  destruct (for_each image_body s0 sel_pre) as [s1 r1] eqn:H1. simpl in Hno.
  rewrite Hno; clear Hno.
  2:{ intros j a Hj Ha. destruct (Hin_pre j Hj) as (a' & Ha' & Hp).
      rewrite lookup_app_l in Ha by (by eapply lookup_lt_Some).
      assert (a' = a) as -> by congruence.
      unfold well_shaped in Hpre. rewrite Forall_forall in Hpre.
      apply Hpre; [|done]. by apply (list_elem_of_lookup_2 _ j). }
  destruct (for_each_touched _ _ image_body_spec _ _ _ _ H1) as [[Hlen Hj1] _].
  simpl in Hlen, Hj1.
  assert (Hunch : ∀ i a, ((pre ++ item :: post)%list : list obj) !! i = Some a →
            (length pre ≤ i)%nat ∨ has_type is_image a = false →
            json_data s1 !! i = Some a).
  { intros i a Ha Hor. destruct (Hj1 i a Ha) as (b & Hb & _ & Hib).
    rewrite Hb, Hib; [done|]. intros Hi.
    destruct (Hin_pre i Hi) as (a' & Ha' & Hp).
    pose proof (lookup_lt_Some _ _ _ Ha') as Hlt.
    rewrite lookup_app_l in Ha by done.
    destruct Hor as [?|Hf]; [lia|congruence]. }
  assert (Hat : json_data s1 !! length pre = Some item).
  { apply Hunch; [|left; lia]. by rewrite list_lookup_middle. }
  exists s1. split; [|done]. simpl.
  unfold Enrich.image_body. by rewrite Hat, Hmeta.
Qed.


End EnrichProps.



Lemma enrich_missing_metadata_aborts_witness :
  ∃ s, Enrich.enrich_json_with_summaries Sample.describe_image Sample.tag_text
         [Sample.narrative; Sample.image_without_metadata; Sample.image] 0%nat
       = (s, Some (KeyError "metadata"))
    ∧ Enrich.json_data s
      = [Sample.narrative; Sample.image_without_metadata; Sample.image].
Proof.
  destruct (enrich_missing_metadata_aborts Sample.describe_image Sample.tag_text
              [Sample.narrative] [Sample.image] Sample.image_without_metadata 0%nat)
    as (s & Hrun & Hkeep).
  - repeat constructor; [by eexists|discriminate].
  - repeat constructor. by eexists.
  - reflexivity.
  - reflexivity.
  - exists s. split; [exact Hrun|].
    pose proof (Hkeep 0%nat Sample.narrative eq_refl (or_intror eq_refl)) as H0.
    pose proof (Hkeep 1%nat Sample.image_without_metadata eq_refl
                  (or_introl (le_n 1))) as H1.
    pose proof (Hkeep 2%nat Sample.image eq_refl
                  (or_introl (le_S 1 1 (le_n 1)))) as H2.
    revert Hrun H0 H1 H2. clear.
    unfold Enrich.enrich_json_with_summaries. simpl.
    intros [= <-]. reflexivity.
Defined.

(** C4. The docstring of [enrich_json_with_summaries] promises summaries
    for the elements "that don't have them", but nothing tests for a
    summary.  On a file holding one element that a first run summarized, a
    second run calls the text summarizer again, replaces the summary by the
    new answer and rewrites the file. *)
Theorem enrich_rerun_overwrites :
  let enrich := Enrich.enrich_json_with_summaries
                  Sample.describe_image Sample.tag_text in
  let first := enrich [Sample.narrative] 0%nat in
  let file1 := Enrich.file_content [Sample.narrative] (fst first) in
  let run := enrich file1 (Enrich.world (fst first)) in
  file1 = [Sample.summarized]
  ∧ snd run = None
  ∧ Enrich.world (fst run) = 2%nat
  ∧ Enrich.dumps (fst run)
    = [[<["summary" := VScalar (SStr "Instructions: revision 1")]> Sample.narrative]]
  ∧ Enrich.file_content file1 (fst run) ≠ file1.
Proof.
  assert (Hfirst : Enrich.enrich_json_with_summaries
               Sample.describe_image Sample.tag_text [Sample.narrative] 0%nat
            = (Enrich.State [Sample.summarized] [[Sample.summarized]] [] 1%nat, None)).
  { reflexivity. }
  assert (Hrun : Enrich.enrich_json_with_summaries
               Sample.describe_image Sample.tag_text [Sample.summarized] 1%nat
            = (Enrich.State
                 [<["summary" := VScalar (SStr "Instructions: revision 1")]> Sample.summarized]
                 [[<["summary" := VScalar (SStr "Instructions: revision 1")]> Sample.summarized]]
                 [] 2%nat, None)).
  { reflexivity. }
  simpl. rewrite Hfirst. unfold Enrich.file_content at 2 3 4 5. simpl.
  rewrite Hrun. simpl. unfold Sample.summarized.
  rewrite insert_insert_eq. split_and!; [done..|].
  unfold Enrich.file_content. simpl. intros Heq.
  apply (f_equal (λ l : list obj, l !! 0%nat ≫= (.!! "summary"))) in Heq.
  simpl in Heq. rewrite !lookup_insert_eq in Heq. discriminate.
Qed.

(** ** Properties of the renderer *)

Section StringFacts.

Lemma bind_Ok {A B : Type} (a : A) (k : A → result B) : bind (Ok a) k = k a.
Proof. reflexivity. Qed.

Lemma append_cons (x : ascii) (a b : string) :
  String x a +:+ b = String x (a +:+ b).
Proof. reflexivity. Qed.

Lemma append_nil_l (a : string) : "" +:+ a = a.
Proof. reflexivity. Qed.

Lemma append_assoc (a b c : string) : (a +:+ b) +:+ c = a +:+ b +:+ c.
Proof.
  induction a as [|x a IH]; [done|]. rewrite !append_cons. by f_equal.
Qed.

Lemma append_nil_r (a : string) : a +:+ "" = a.
Proof.
  induction a as [|x a IH]; [done|]. rewrite append_cons. by f_equal.
Qed.

Lemma append_nonempty_r (a b : string) : b ≠ "" → a +:+ b ≠ "".
Proof. destruct a; [done|]. rewrite append_cons. discriminate. Qed.

Lemma eqb_empty_false (a : string) : a ≠ "" → String.eqb a "" = false.
Proof. by destruct a. Qed.

End StringFacts.

Section MarkdownProps.

Import Markdown MdSpec.

Variable str_container : value → string.

Abbreviation element_body := (element_body str_container).
Abbreviation render_element := (render_element str_container).
Abbreviation render_elements := (render_elements str_container).
Abbreviation render_chunk := (render_chunk str_container).
Abbreviation chunk_body := (chunk_body str_container).
Abbreviation run := (run str_container).
Abbreviation generate_markdown := (generate_markdown str_container).
Abbreviation chunk_markup := (chunk_markup str_container).
Abbreviation callout_of := (callout_of str_container).

(** *** A chunk's markup does not depend on what the page already holds *)

Lemma render_elements_prefix item pc l :
  render_elements item pc l
  = bind (render_elements item "" l) (λ m, Ok (pc +:+ m)).
Proof.
  revert pc. induction l as [|e rest IH]; intros pc; simpl.
  - by rewrite append_nil_r.
  - destruct (render_element item e) as [m|]; simpl; [|done].
    rewrite append_nil_l, (IH (pc +:+ m)), (IH m).
    destruct (Markdown.render_elements _ item "" rest) as [m'|]; simpl; [|done].
    by rewrite append_assoc.
Qed.

Lemma render_chunk_prefix c pc :
  render_chunk c pc = bind (render_chunk c "") (λ m, Ok (pc +:+ m)).
Proof.
  unfold Markdown.render_chunk.
  destruct (chunk_text_of c) as [chunk_text|]; simpl; [|done].
  destruct (c !! "id") as [chunk_id|]; [|done].
  destruct (c !! "orig_elements") as [[?|?|l]|]; try done.
  rewrite append_nil_l.
  rewrite (render_elements_prefix c (pc +:+ _)).
  rewrite (render_elements_prefix c (chunk_open _ _)).
  destruct (Markdown.render_elements _ c "" l) as [m|]; simpl; [|done].
  by rewrite !append_assoc.
Qed.

Lemma element_body_is_Ok item (e : gmap string scalar) :
  is_Some (e !! "text") → ∃ m, element_body item e = Ok m.
Proof.
  intros [t Ht]. unfold Markdown.element_body. rewrite Ht.
  repeat (match goal with
          | |- context [if ?b then _ else _] => destruct b
          | |- context [match ?o with Some _ => _ | None => _ end] => destruct o
          end; try by eexists).
Qed.

Lemma render_elements_is_Ok item pc (l : list (gmap string scalar)) :
  Forall (λ e : gmap string scalar, is_Some (e !! "text")) l →
  ∃ m, render_elements item pc l = Ok m.
Proof.
  intros H. revert pc. induction H as [|e rest He _ IH]; intros pc; simpl.
  - by eexists.
  - unfold Markdown.render_element.
    destruct (element_body_is_Ok item e He) as [m ->]. simpl. apply IH.
Qed.

Lemma well_formed_renders c :
  well_formed_chunk c →
  chunk_markup c ≠ "" ∧ ∀ pc, render_chunk c pc = Ok (pc +:+ chunk_markup c).
Proof.
  intros ([chunk_id Hid] & [t Ht] & e & l & Hoe & Hall).
  assert (Hmk : ∃ m, render_chunk c "" = Ok m ∧ m ≠ "") .
  { unfold Markdown.render_chunk, chunk_text_of. rewrite Ht, Hid, Hoe, bind_Ok.
    rewrite render_elements_prefix.
    destruct (render_elements_is_Ok c "" (e :: l) Hall) as [m ->].
    rewrite !bind_Ok. eexists. split; [done|].
    apply append_nonempty_r. discriminate. }
  destruct Hmk as (m & Hm & Hne). unfold MdSpec.chunk_markup.
  split; [by rewrite Hm|]. intros pc. rewrite render_chunk_prefix, Hm. done.
Qed.

(** *** Pages *)

Lemma pages_unfold p m rest :
  pages ((p, m) :: rest)
  = match pages rest with
    | (q, ms) :: g =>
        if p =? q then (p, m :: ms) :: g else (p, [m]) :: (q, ms) :: g
    | [] => [(p, [m])]
    end.
Proof. reflexivity. Qed.

Lemma concat_str_cons m ms : concat_str (m :: ms) = m +:+ concat_str ms.
Proof. reflexivity. Qed.

Lemma pages_cons p rest :
  ∃ ms g, ∀ m, pages ((p, m) :: rest) = (p, m :: ms) :: g.
Proof.
  simpl. destruct (pages rest) as [|[q ms] g].
  - by exists [], [].
  - destruct (p =? q).
    + by exists ms, g.
    + by exists [], ((q, ms) :: g).
Qed.

Lemma pages_nil_inv l : pages l = [] → l = [].
Proof.
  destruct l as [|[p m] rest]; [done|].
  destruct (pages_cons p rest) as (ms & g & H). by rewrite H.
Qed.

Lemma pages_head l q ms g :
  pages l = (q, ms) :: g → ∃ m rest, l = (q, m) :: rest.
Proof.
  destruct l as [|[p m] rest]; [done|].
  destruct (pages_cons p rest) as (ms' & g' & H). rewrite H.
  intros [= -> _ _]. by eexists _, _.
Qed.

Lemma pages_concat l :
  concat (map (λ page : Z * list string, map (pair (fst page)) (snd page)) (pages l))
  = l.
Proof.
  induction l as [|[p m] rest IH]; [done|]. simpl.
  destruct (pages rest) as [|[q ms] g] eqn:Hp.
  - apply pages_nil_inv in Hp as ->. done.
  - destruct (p =? q) eqn:Hpq; simpl in *.
    + apply Z.eqb_eq in Hpq as ->. by rewrite <- IH.
    + by rewrite <- IH.
Qed.

Lemma pages_length_sorted l :
  StronglySorted Z.le (map fst l) →
  length (pages l) = size (list_to_set (map fst l) : gset Z).
Proof.
  induction l as [|[p m] rest IH]; [done|]. cbn [map fst].
  intros Hs. apply StronglySorted_inv in Hs as [Hs Hall].
  specialize (IH Hs). rewrite list_to_set_cons. cbn [pages].
  destruct (pages rest) as [|[q ms] g] eqn:Hp.
  - apply pages_nil_inv in Hp as ->. cbn [map list_to_set length].
    by rewrite (right_id_L ∅ (∪)), size_singleton.
  - destruct (pages_head _ _ _ _ Hp) as (m' & rest' & ->).
    cbn [map fst] in *. rewrite list_to_set_cons in *.
    destruct (p =? q) eqn:Hpq.
    + apply Z.eqb_eq in Hpq as ->. cbn [length] in *. rewrite IH.
      by rewrite (assoc_L (∪)), (idemp_L (∪)).
    + apply Z.eqb_neq in Hpq. cbn [length] in *. rewrite IH.
      rewrite (size_union {[p]}), size_singleton; [done|].
      apply disjoint_singleton_l.
      apply StronglySorted_inv in Hs as [_ Hq].
      apply Forall_cons in Hall as [Hpq' _].
      rewrite elem_of_union, elem_of_singleton, elem_of_list_to_set.
      intros [?|Hin]; [done|].
      rewrite Forall_forall in Hq. specialize (Hq p Hin). lia.
Qed.

(** *** The loop over the chunks *)

Lemma chunk_body_well_formed (s : state) c p :
  well_formed_chunk c → first_page c = SInt p →
  let flush := negb (py_eq (SInt p) (current_page s))
               && negb (bool_decide (current_page s = SNone)) in
  chunk_body s c
  = (State (if flush
            then markdown_content s +:+ page_content s
                 +:+ PAGE_FOOTER (current_page s)
            else markdown_content s)
           (SInt p)
           ((if flush then "" else page_content s) +:+ chunk_markup c)
           (console s), None).
Proof.
  intros Hwf Hp. destruct (well_formed_renders c Hwf) as [_ Hrender].
  destruct Hwf as (_ & _ & e & l & Hoe & _).
  unfold first_page in Hp. rewrite Hoe in Hp.
  unfold Markdown.chunk_body, no_orig_elements. rewrite Hoe. simpl.
  rewrite Hp, Hrender. done.
Qed.

Lemma run_from chunks :
  ∀ pgs mc q pc cons,
    Forall well_formed_chunk chunks →
    map first_page chunks = map SInt pgs →
    pc ≠ "" →
    ∃ s', for_each chunk_body (State mc (SInt q) pc cons) chunks = (s', None)
      ∧ finish s'
        = mc +:+ concat_str
                   (map page_block
                      (pages ((q, pc) :: zip pgs (map chunk_markup chunks)))).
Proof.
  induction chunks as [|c rest IH]; intros pgs mc q pc cons Hwf Hpg Hpc.
  - eexists. split; [done|]. unfold finish. simpl.
    rewrite (eqb_empty_false pc Hpc). simpl.
    destruct pgs; simpl; unfold page_block; simpl;
      by rewrite !append_nil_r.
  - destruct pgs as [|p pgs]; [done|]. simpl in Hpg. injection Hpg as Hp Hpg.
    apply Forall_cons in Hwf as [Hc Hwf].
    destruct (well_formed_renders c Hc) as [Hne _].
    cbn [for_each]. rewrite (chunk_body_well_formed _ c p Hc Hp).
    cbn [current_page markdown_content page_content console].
    change (py_eq (SInt p) (SInt q)) with (p =? q).
    rewrite (bool_decide_false (SInt q = SNone)) by done.
    cbn [negb]. rewrite andb_true_r.
    change (zip (p :: pgs) (map chunk_markup (c :: rest)))
      with ((p, chunk_markup c) :: zip pgs (map chunk_markup rest)).
    destruct (pages_cons p (zip pgs (map chunk_markup rest))) as (ms & g & Hshape).
    destruct (p =? q) eqn:Hpq; cbn [negb andb].
    + apply Z.eqb_eq in Hpq as ->.
      destruct (IH pgs mc q (pc +:+ chunk_markup c) cons Hwf Hpg) as (s' & Hrun & Hfin).
      { by apply append_nonempty_r. }
      exists s'. split; [done|]. rewrite Hfin. f_equal.
      rewrite (pages_unfold q pc), !Hshape, Z.eqb_refl.
      cbn [map]. rewrite !concat_str_cons.
      change (page_block (q, (pc +:+ chunk_markup c) :: ms))
        with (((pc +:+ chunk_markup c) +:+ concat_str ms) +:+ PAGE_FOOTER (SInt q)).
      change (page_block (q, pc :: chunk_markup c :: ms))
        with ((pc +:+ chunk_markup c +:+ concat_str ms) +:+ PAGE_FOOTER (SInt q)).
      by rewrite !append_assoc.
    + destruct (IH pgs (mc +:+ pc +:+ PAGE_FOOTER (SInt q)) p
                  ("" +:+ chunk_markup c) cons Hwf Hpg) as (s' & Hrun & Hfin).
      { by apply append_nonempty_r. }
      exists s'. split; [done|]. rewrite Hfin, append_nil_l.
      rewrite (pages_unfold q pc), !Hshape, Z.eqb_sym, Hpq.
      cbn [map]. rewrite !concat_str_cons.
      change (page_block (q, [pc])) with ((pc +:+ "") +:+ PAGE_FOOTER (SInt q)).
      by rewrite append_nil_r, !append_assoc.
Qed.

Lemma map_fst_zip {A B : Type} (l : list A) (k : list B) :
  length l = length k → map fst (zip l k) = l.
Proof.
  revert k. induction l as [|x l IH]; intros [|y k] Hlen; try done.
  simpl in *. f_equal. apply IH. lia.
Qed.


(** *** The console does not influence the document *)

Lemma chunk_body_console mc cp pc cons1 cons2 item :
  snd (chunk_body (State mc cp pc cons1) item)
  = snd (chunk_body (State mc cp pc cons2) item)
  ∧ same_document (fst (chunk_body (State mc cp pc cons1) item))
                  (fst (chunk_body (State mc cp pc cons2) item)).
Proof.
  unfold Markdown.chunk_body. cbn [current_page markdown_content page_content console].
  destruct (no_orig_elements item); [done|].
  destruct (first_element _); [|done].
  destruct (Markdown.render_chunk _ _ _); done.
Qed.

Lemma for_each_console l (s1 s2 : state) :
  same_document s1 s2 →
  snd (for_each chunk_body s1 l) = snd (for_each chunk_body s2 l)
  ∧ same_document (fst (for_each chunk_body s1 l)) (fst (for_each chunk_body s2 l)).
Proof.
  revert s1 s2. induction l as [|item rest IH]; intros s1 s2 Hsame; [done|].
  destruct s1 as [mc cp pc cons1], s2 as [mc2 cp2 pc2 cons2].
  destruct Hsame as (Hmc & Hcp & Hpc). simpl in Hmc, Hcp, Hpc. subst mc2 cp2 pc2.
  cbn [for_each].
  destruct (chunk_body_console mc cp pc cons1 cons2 item) as [Hr Hs].
  destruct (chunk_body (State mc cp pc cons1) item) as [t1 r1].
  destruct (chunk_body (State mc cp pc cons2) item) as [t2 r2].
  simpl in Hr, Hs. subst r2. destruct r1; [done|]. by apply IH.
Qed.

Lemma generate_markdown_from (s1 s2 : state) l :
  same_document s1 s2 →
  match for_each chunk_body s1 l with
  | (s, None) => Ok (finish s)
  | (_, Some e) => Raise e
  end
  = match for_each chunk_body s2 l with
    | (s, None) => Ok (finish s)
    | (_, Some e) => Raise e
    end.
Proof.
  intros Hsame. destruct (for_each_console l s1 s2 Hsame) as [Hr Hs].
  destruct (for_each chunk_body s1 l) as [t1 r1].
  destruct (for_each chunk_body s2 l) as [t2 r2].
  simpl in Hr, Hs. subst r2. destruct r1; [done|].
  destruct Hs as (Hmc & Hcp & Hpc). unfold finish. by rewrite Hmc, Hcp, Hpc.
Qed.


(** C10. A chunk whose [orig_elements] is an empty list is not skipped:
    reading its first element raises [IndexError].  The exception leaves
    [generate_markdown], so no list of chunks that holds such a chunk is
    rendered. *)
Theorem generate_markdown_empty_orig_elements (l1 l2 : list obj) (c : obj) (s : state) :
  c !! "orig_elements" = Some (VList []) →
  chunk_body s c = (s, Some IndexError)
  ∧ generate_markdown (c :: l2) = Raise IndexError
  ∧ ∃ e, generate_markdown (l1 ++ c :: l2) = Raise e.
Proof.
  intros Hoe.
  assert (Hstep : ∀ s0 : state, chunk_body s0 c = (s0, Some IndexError)).
  { intros s0. unfold Markdown.chunk_body, no_orig_elements. by rewrite Hoe. }
  split_and!.
  - apply Hstep.
  - unfold Markdown.generate_markdown, Markdown.run. cbn [for_each].
    by rewrite Hstep.
  - unfold Markdown.generate_markdown, Markdown.run. rewrite for_each_app.
    destruct (for_each chunk_body _ l1) as [s1 [e|]]; [by eexists|].
    cbn [for_each]. rewrite Hstep. by eexists.
Qed.

(** *** Type dispatch *)

Lemma narrative_body item (e : gmap string scalar) :
  narrative_element e → element_body item e = Ok (callout_of item).
Proof.
  unfold Markdown.element_body, MdSpec.callout_of, get_or.
  intros [-> | ->]; simpl; by destruct (item !! "summary").
Qed.


(** C6, as the code has it.  An Image or Table element without a payload
    gives a placeholder line showing its text; the marker "?Unknown" stands
    for a text that is present but empty or null, and "No content" for a
    missing [text] key.  With a payload and a [text] key it gives the image
    reference, PNG if tagged [image/png] and JPEG otherwise, with the text
    as caption. *)
Theorem image_rendering (item : obj) (e : gmap string scalar) :
  visual_element e →
  (truthy_scalar (get e "image") = false →
   element_body item e
   = Ok (image_placeholder
           match e !! "text" with
           | None => "No content"
           | Some t => if truthy_scalar t then str t else "?Unknown"
           end))
  ∧ (truthy_scalar (get e "image") = true →
     ∀ t, e !! "text" = Some t →
       element_body item e
       = Ok (image_md (if eq_str (get e "image_mime_type") "image/png"
                       then "png" else "jpeg")
                      (str (get e "image")) (str t))).
Proof.
  intros Hvis. split.
  - intros Himg. unfold Markdown.element_body, get_or.
    destruct Hvis as [-> | ->]; simpl; rewrite Himg;
      by destruct (e !! "text").
  - intros Himg t Ht. unfold Markdown.element_body, get_or.
    destruct Hvis as [-> | ->]; simpl; by rewrite Himg, Ht.
Qed.

End MarkdownProps.

(** *** The renderer on the samples *)



Lemma generate_markdown_empty_orig_elements_witness :
  Markdown.generate_markdown Sample.no_container [Sample.hollow; Sample.chunk "a" 1]
  = Raise IndexError.
Proof.
  destruct (generate_markdown_empty_orig_elements Sample.no_container
              [] [Sample.chunk "a" 1] Sample.hollow
              (Markdown.State nl SNone "" []))
    as (_ & Hraise & _).
  - reflexivity.
  - exact Hraise.
Defined.



Lemma image_rendering_witness :
  Markdown.element_body Sample.no_container ∅ Sample.bare_image
  = Ok (Markdown.image_placeholder "No content")
  ∧ Markdown.element_body Sample.no_container ∅ Sample.png_image
    = Ok (Markdown.image_md "png" "iVBORw0KGgo=" "A diagram").
Proof.
  split.
  - destruct (image_rendering Sample.no_container ∅ Sample.bare_image) as [H _].
    + by left.
    + rewrite H; reflexivity.
  - destruct (image_rendering Sample.no_container ∅ Sample.png_image) as [_ H].
    + by left.
    + rewrite (H eq_refl (SStr "A diagram") eq_refl). reflexivity.
Defined.

(** C6 as stated fails: an Image element without a payload and without a
    [text] key shows "No content", not the marker "?Unknown". *)
Lemma image_placeholder_counterexample :
  Sample.bare_image !! "text" = None
  ∧ Sample.bare_image !! "image" = None
  ∧ Markdown.element_body Sample.no_container ∅ Sample.bare_image
    = Ok (Markdown.image_placeholder "No content")
  ∧ Markdown.element_body Sample.no_container ∅ Sample.bare_image
    ≠ Ok (Markdown.image_placeholder "?Unknown").
Proof. split_and!; [reflexivity..|]. vm_compute. discriminate. Qed.

(** ** More on the enrichment *)

Section EnrichMore.

Import Enrich Spec EnrichSpec.

Context {W : Type}.
Variable summarize_image : W → scalar → W * result scalar.
Variable summarize_text : W → value → W * result scalar.

Abbreviation image_body := (image_body summarize_image).
Abbreviation text_body := (text_body summarize_text).
Abbreviation enrich := (enrich_json_with_summaries summarize_image summarize_text).

Lemma select_missing_type p i (data : list obj) :
  Exists (λ a : obj, a !! "type" = None) data →
  select p i data = Raise (KeyError "type").
Proof.
  intros H. revert i. induction H as [item rest Hitem|item rest _ IH]; intros i; simpl.
  - by rewrite Hitem.
  - destruct (item !! "type"); [|done]. by rewrite IH.
Qed.

(** An element without a [type] stops the run while the work lists are
    built: no summarizer is called, nothing is written, nothing is logged. *)
Theorem enrich_missing_type (data : list obj) (w : W) :
  Exists (λ a : obj, a !! "type" = None) data →
  enrich_json_with_summaries summarize_image summarize_text data w
  = (State data [] [] w, Some (KeyError "type")).
Proof.
  intros H. unfold Enrich.enrich_json_with_summaries.
  by rewrite (select_missing_type is_image 0 data H).
Qed.

(** *** The file follows the store *)

Lemma for_each_in_sync k (body : state W → nat → state W * option exn)
    (data : list obj) :
  body_spec k body →
  ∀ l s, default data (last (dumps s)) = json_data s →
    default data (last (dumps (fst (for_each body s l))))
    = json_data (fst (for_each body s l)).
Proof.
  intros Hbody. induction l as [|i rest IH]; intros s Hs; [done|].
  cbn [for_each]. destruct (body s i) as [s1 r] eqn:Hb.
  assert (H1 : default data (last (dumps s1)) = json_data s1).
  { destruct (Hbody _ _ _ _ Hb) as [[Hd Hdu]|(v & Hd & Hdu)].
    - by rewrite Hd, Hdu.
    - by rewrite Hdu, last_snoc. }
  destruct r; [done|]. by apply IH.
Qed.

Lemma file_follows_store (data : list obj) (w : W) :
  file_content data (fst (enrich data w)) = json_data (fst (enrich data w)).
Proof.
  unfold file_content, Enrich.enrich_json_with_summaries.
  destruct (select is_image 0 data) as [imgs|]; [|done].
  destruct (select is_text 0 data) as [txts|]; [|done].
  pose proof (for_each_in_sync "text" image_body data
                (image_body_spec summarize_image) imgs (State data [] [] w) eq_refl) as H1.
  destruct (for_each image_body (State data [] [] w) imgs) as [s1 [e|]]; [done|].
  apply (for_each_in_sync "summary" text_body data
           (text_body_spec summarize_text) txts s1 H1).
Qed.


(** *** Counting writes and log entries *)

Lemma select_length p i (data : list obj) l :
  select p i data = Ok l →
  length l = length (filter (λ a : obj, has_type p a = true) data)
  ∧ ∀ j, j ∈ l → (i ≤ j < i + length data)%nat.
Proof.
  revert i l. induction data as [|item rest IH]; intros i l; simpl.
  - intros [= <-]. split; [done|]. intros j Hj. by apply elem_of_nil in Hj.
  - destruct (item !! "type") as [t|] eqn:Ht; [|done].
    destruct (select p (S i) rest) as [l'|] eqn:Hsel; [|done]. simpl.
    destruct (IH _ _ Hsel) as [Hlen Hrange]. intros [= <-].
    assert (Hht : has_type p item = p t) by (unfold has_type; by rewrite Ht).
    rewrite filter_cons. destruct (p t) eqn:Hp.
    + rewrite decide_True by congruence. simpl. split; [by f_equal|].
      intros j [->|Hj]%elem_of_cons; [lia|]. specialize (Hrange j Hj). lia.
    + rewrite decide_False by congruence. split; [done|].
      intros j Hj. specialize (Hrange j Hj). lia.
Qed.

Lemma image_is_not_text (a : obj) :
  has_type is_image a = true → has_type is_text a = false.
Proof.
  unfold has_type. destruct (a !! "type") as [[[| |z|t]| |]|]; try done.
  unfold is_image, is_text, value_eq_str, eq_str. simpl.
  intros ->%String.eqb_eq. reflexivity.
Qed.

Lemma enrichable_count (data : list obj) :
  length (filter (λ a : obj, enrichable a = true) data)
  = (length (filter (λ a : obj, has_type is_image a = true) data)
     + length (filter (λ a : obj, has_type is_text a = true) data))%nat.
Proof.
  induction data as [|a rest IH]; [done|].
  pose proof (image_is_not_text a) as Hd.
  assert (He : enrichable a = has_type is_image a || has_type is_text a) by done.
  destruct (has_type is_image a) eqn:Hi, (has_type is_text a) eqn:Ht;
    try (by specialize (Hd eq_refl)); simpl in He;
    rewrite !filter_cons.
  - rewrite (decide_True (P := enrichable a = true)) by done.
    rewrite (decide_True (P := has_type is_image a = true)) by done.
    rewrite (decide_False (P := has_type is_text a = true)) by congruence.
    simpl. by rewrite IH.
  - rewrite (decide_True (P := enrichable a = true)) by done.
    rewrite (decide_False (P := has_type is_image a = true)) by congruence.
    rewrite (decide_True (P := has_type is_text a = true)) by done.
    simpl. rewrite IH. lia.
  - rewrite (decide_False (P := enrichable a = true)) by congruence.
    rewrite (decide_False (P := has_type is_image a = true)) by congruence.
    by rewrite (decide_False (P := has_type is_text a = true)) by congruence.
Qed.

Lemma image_body_counts : body_counts image_body.
Proof.
  intros s i s' r. unfold Enrich.image_body, effort.
  destruct (json_data s !! i) as [item|] eqn:Hi.
  2:{ intros [= <- <-]. split; [done|]. split; [lia|].
      intros _ Hlt. apply lookup_ge_None in Hi. lia. }
  destruct (item !! "metadata") as [[?|md|?]|];
    try (intros [= <- <-]; split; [done|]; split; [lia|done]).
  destruct (truthy_scalar _).
  - destruct (summarize_image _ _) as [w [summary|e]]; intros [= <- <-]; simpl;
      rewrite ?length_alter, ?length_app; simpl;
      (split; [done|]; split; [lia|intros; lia]).
  - intros [= <- <-]. simpl. rewrite length_app. simpl.
    split; [done|]. split; [lia|intros; lia].
Qed.

Lemma text_body_counts : body_counts text_body.
Proof.
  intros s i s' r. unfold Enrich.text_body, effort.
  destruct (json_data s !! i) as [item|] eqn:Hi.
  2:{ intros [= <- <-]. split; [done|]. split; [lia|].
      intros _ Hlt. apply lookup_ge_None in Hi. lia. }
  destruct (truthy _).
  - destruct (summarize_text _ _) as [w [summary|e]]; intros [= <- <-]; simpl;
      rewrite ?length_alter, ?length_app; simpl;
      (split; [done|]; split; [lia|intros; lia]).
  - intros [= <- <-]. simpl. rewrite length_app. simpl.
    split; [done|]. split; [lia|intros; lia].
Qed.

Lemma for_each_counts (body : state W → nat → state W * option exn) :
  body_counts body →
  ∀ l s, (∀ j, j ∈ l → (j < length (json_data s))%nat) →
    length (json_data (fst (for_each body s l))) = length (json_data s)
    ∧ (effort (fst (for_each body s l)) ≤ effort s + length l)%nat
    ∧ (snd (for_each body s l) = None →
       effort (fst (for_each body s l)) = (effort s + length l)%nat).
Proof.
  intros Hbody. induction l as [|i rest IH]; intros s Hl.
  - simpl. split_and!; [done|lia|lia].
  - cbn [for_each]. destruct (body s i) as [s1 r] eqn:Hb.
    destruct (Hbody _ _ _ _ Hb) as (Hlen & Hle & Heq).
    destruct r as [e|]; simpl.
    + split_and!; [done|lia|done].
    + destruct (IH s1) as (Hlen' & Hle' & Heq').
      { intros j Hj. rewrite Hlen. apply Hl. by right. }
      assert (Heff : effort s1 = (effort s + 1)%nat).
      { apply Heq; [done|]. apply Hl. by left. }
      split_and!; [congruence|lia|]. intros Hr. rewrite (Heq' Hr). lia.
Qed.


(** *** Summarizers whose answer does not depend on the world *)

Lemma has_type_insert p k v (a : obj) :
  k ≠ "type" → has_type p (<[k := v]> a) = has_type p a.
Proof. intros Hk. unfold has_type. by rewrite lookup_insert_ne. Qed.

Lemma image_one_type f (a : obj) : image_one f a !! "type" = a !! "type".
Proof.
  unfold image_one. destruct (has_type is_image a); [|done].
  destruct (a !! "metadata") as [[?|md|?]|]; try done.
  destruct (truthy_scalar _); [|done].
  destruct (f _); [|done]. by rewrite lookup_insert_ne.
Qed.

Lemma select_map p i g (data : list obj) :
  (∀ a : obj, g a !! "type" = a !! "type") →
  select p i (map g data) = select p i data.
Proof.
  intros Hg. revert i. induction data as [|a rest IH]; intros i; [done|].
  simpl. by rewrite Hg, IH.
Qed.

Section Stateless.

Variable f : scalar → result scalar.
Variable g : value → result scalar.
Hypothesis image_answer : ∀ w x, snd (summarize_image w x) = f x.
Hypothesis text_answer : ∀ w x, snd (summarize_text w x) = g x.

Lemma image_loop_map (data : list obj) :
  ∀ pre s i l,
    json_data s = (pre ++ data)%list → length pre = i →
    select is_image i data = Ok l →
    Forall (λ a : obj, has_type is_image a = true →
                       ∃ md, a !! "metadata" = Some (VDict md)) data →
    ∃ s', for_each image_body s l = (s', None)
      ∧ json_data s' = (pre ++ map (image_one f) data)%list.
Proof.
  induction data as [|item rest IH]; intros pre s i l Hs Hi Hsel Hmd.
  - simpl in Hsel. injection Hsel as <-. exists s. by rewrite Hs.
  - simpl in Hsel. destruct (item !! "type") as [t|] eqn:Ht; [|done].
    destruct (select is_image (S i) rest) as [l'|] eqn:Hsel'; [|done].
    simpl in Hsel. injection Hsel as <-.
    apply Forall_cons in Hmd as [Hitem Hmd].
    assert (Hht : has_type is_image item = is_image t).
    { unfold has_type. by rewrite Ht. }
    assert (Hat : json_data s !! i = Some item).
    { rewrite Hs, <- Hi. apply list_lookup_middle. done. }
    assert (Hnext : ∀ s1 : state W,
              json_data s1 = (pre ++ image_one f item :: rest)%list →
              ∃ s', for_each image_body s1 l' = (s', None)
                ∧ json_data s' = (pre ++ map (image_one f) (item :: rest))%list).
    { intros s1 Hs1.
      destruct (IH (pre ++ [image_one f item])%list s1 (S i) l') as (s' & Hrun & Hd);
        [rewrite <- app_assoc; exact Hs1|rewrite length_app; simpl; lia|done|done|].
      exists s'. split; [done|]. rewrite Hd. by rewrite <- app_assoc. }
    unfold image_one in Hnext. rewrite Hht in Hnext.
    destruct (is_image t) eqn:Hp; [|by apply Hnext].
    destruct (Hitem Hht) as [md Hmeta]. rewrite Hmeta in Hnext.
    cbn [for_each]. unfold Enrich.image_body at 1. rewrite Hat, Hmeta.
    destruct (truthy_scalar (get md "image_base64")) eqn:Htr.
    + pose proof (image_answer (world s) (get md "image_base64")) as Hans.
      destruct (summarize_image (world s) (get md "image_base64")) as [w r].
      simpl in Hans. subst r. destruct (f (get md "image_base64")) as [summary|e].
      * apply Hnext. simpl. rewrite Hs, <- Hi.
        rewrite alter_app_r_alt by lia. by rewrite Nat.sub_diag.
      * apply Hnext. simpl. done.
    + apply Hnext. simpl. done.
Qed.

Lemma text_loop_map (data : list obj) :
  ∀ pre s i l,
    json_data s = (pre ++ data)%list → length pre = i →
    select is_text i data = Ok l →
    ∃ s', for_each text_body s l = (s', None)
      ∧ json_data s' = (pre ++ map (text_one g) data)%list.
Proof.
  induction data as [|item rest IH]; intros pre s i l Hs Hi Hsel.
  - simpl in Hsel. injection Hsel as <-. exists s. by rewrite Hs.
  - simpl in Hsel. destruct (item !! "type") as [t|] eqn:Ht; [|done].
    destruct (select is_text (S i) rest) as [l'|] eqn:Hsel'; [|done].
    simpl in Hsel. injection Hsel as <-.
    assert (Hht : has_type is_text item = is_text t).
    { unfold has_type. by rewrite Ht. }
    assert (Hat : json_data s !! i = Some item).
    { rewrite Hs, <- Hi. apply list_lookup_middle. done. }
    assert (Hnext : ∀ s1 : state W,
              json_data s1 = (pre ++ text_one g item :: rest)%list →
              ∃ s', for_each text_body s1 l' = (s', None)
                ∧ json_data s' = (pre ++ map (text_one g) (item :: rest))%list).
    { intros s1 Hs1.
      destruct (IH (pre ++ [text_one g item])%list s1 (S i) l') as (s' & Hrun & Hd);
        [rewrite <- app_assoc; exact Hs1|rewrite length_app; simpl; lia|done|].
      exists s'. split; [done|]. rewrite Hd. by rewrite <- app_assoc. }
    unfold text_one in Hnext. rewrite Hht in Hnext.
    destruct (is_text t) eqn:Hp; [|by apply Hnext].
    cbn [for_each]. unfold Enrich.text_body at 1. rewrite Hat.
    cbn zeta.
    destruct (truthy (default (VScalar SNone) (item !! "text"))) eqn:Htr.
    + pose proof (text_answer (world s) (default (VScalar SNone) (item !! "text")))
        as Hans.
      destruct (summarize_text (world s) _) as [w r].
      simpl in Hans. subst r.
      destruct (g (default (VScalar SNone) (item !! "text"))) as [summary|e].
      * apply Hnext. simpl. rewrite Hs, <- Hi.
        rewrite alter_app_r_alt by lia. by rewrite Nat.sub_diag.
      * apply Hnext. simpl. done.
    + apply Hnext. simpl. done.
Qed.

Lemma enrich_stateless_run (data : list obj) (w : W) :
  well_shaped data →
  ∃ s, enrich data w = (s, None)
    ∧ json_data s = map (enrich_one f g) data.
Proof.
  intros Hws. unfold Enrich.enrich_json_with_summaries.
  assert (Htypes : Forall (λ a : obj, is_Some (a !! "type")) data).
  { eapply Forall_impl; [exact Hws|]. by intros a [? _]. }
  assert (Hmeta : Forall (λ a : obj, has_type is_image a = true →
                            ∃ md, a !! "metadata" = Some (VDict md)) data).
  { eapply Forall_impl; [exact Hws|]. by intros a [_ ?]. }
  destruct (select_is_Ok is_image 0 data Htypes) as [imgs Himgs].
  destruct (select_is_Ok is_text 0 data Htypes) as [txts Htxts].
  rewrite Himgs, Htxts.
  destruct (image_loop_map data [] (State data [] [] w) 0%nat imgs)
    as (s1 & -> & Hd1); [done..|].
  rewrite <- (select_map is_text 0 (image_one f) data (image_one_type f)) in Htxts.
  destruct (text_loop_map (map (image_one f) data) [] s1 0%nat txts)
    as (s2 & -> & Hd2); [done..|].
  exists s2. split; [done|]. rewrite Hd2. simpl. rewrite map_map. done.
Qed.

Lemma is_text_not_image (a : obj) :
  has_type is_text a = true → has_type is_image a = false.
Proof.
  intros Ht. destruct (has_type is_image a) eqn:Hi; [|done].
  rewrite (image_is_not_text a Hi) in Ht. done.
Qed.

Lemma enrich_one_type (a : obj) : enrich_one f g a !! "type" = a !! "type".
Proof.
  unfold enrich_one, text_one. rewrite <- (image_one_type f a).
  destruct (has_type is_text _); [|done].
  destruct (truthy _); [|done]. destruct (g _); [|done].
  by rewrite lookup_insert_ne.
Qed.

Lemma enrich_one_metadata (a : obj) :
  enrich_one f g a !! "metadata" = a !! "metadata".
Proof.
  assert (Hi : image_one f a !! "metadata" = a !! "metadata").
  { unfold image_one. destruct (has_type is_image a); [|done].
    destruct (a !! "metadata") as [[?|md|?]|] eqn:Hm; try done.
    destruct (truthy_scalar _); [|done].
    destruct (f _); [|done]. by rewrite lookup_insert_ne. }
  unfold enrich_one, text_one. rewrite <- Hi.
  destruct (has_type is_text _); [|done].
  destruct (truthy _); [|done]. destruct (g _); [|done].
  by rewrite lookup_insert_ne.
Qed.

Lemma enrich_one_well_shaped (data : list obj) :
  well_shaped data → well_shaped (map (enrich_one f g) data).
Proof.
  unfold well_shaped. intros H. apply Forall_forall. intros b Hb.
  apply list_elem_of_In, in_map_iff in Hb as (a & <- & Ha).
  apply list_elem_of_In in Ha. rewrite Forall_forall in H.
  destruct (H a Ha) as [Ht Hm].
  unfold has_type. rewrite enrich_one_type, enrich_one_metadata. by split.
Qed.

Lemma image_one_idempotent (a : obj) :
  image_one f (image_one f a) = image_one f a.
Proof.
  assert (Hid : image_one f a = a → image_one f (image_one f a) = image_one f a).
  { intros H. by rewrite !H. }
  destruct (has_type is_image a) eqn:Hi;
    [|apply Hid; unfold image_one; by rewrite Hi].
  destruct (a !! "metadata") as [[x|md|x]|] eqn:Hm;
    try (apply Hid; unfold image_one; by rewrite Hi, Hm).
  destruct (truthy_scalar (get md "image_base64")) eqn:Htr;
    [|apply Hid; unfold image_one; by rewrite Hi, Hm, Htr].
  destruct (f (get md "image_base64")) as [summary|e] eqn:Hf;
    [|apply Hid; unfold image_one; by rewrite Hi, Hm, Htr, Hf].
  assert (Hv : image_one f a = <["text" := VScalar summary]> a).
  { unfold image_one. by rewrite Hi, Hm, Htr, Hf. }
  rewrite Hv. unfold image_one. rewrite has_type_insert by done.
  rewrite Hi, lookup_insert_ne by done. rewrite Hm, Htr, Hf.
  apply insert_insert_eq.
Qed.

Lemma text_one_idempotent (a : obj) :
  text_one g (text_one g a) = text_one g a.
Proof.
  assert (Hid : text_one g a = a → text_one g (text_one g a) = text_one g a).
  { intros H. by rewrite !H. }
  destruct (has_type is_text a) eqn:Ht;
    [|apply Hid; unfold text_one; by rewrite Ht].
  destruct (truthy (default (VScalar SNone) (a !! "text"))) eqn:Htr;
    [|apply Hid; unfold text_one; by rewrite Ht, Htr].
  destruct (g (default (VScalar SNone) (a !! "text"))) as [summary|e] eqn:Hg;
    [|apply Hid; unfold text_one; by rewrite Ht, Htr, Hg].
  assert (Hv : text_one g a = <["summary" := VScalar summary]> a).
  { unfold text_one. by rewrite Ht, Htr, Hg. }
  rewrite Hv. unfold text_one. rewrite has_type_insert by done.
  rewrite Ht, lookup_insert_ne by done. rewrite Htr, Hg.
  apply insert_insert_eq.
Qed.

Lemma text_one_type (a : obj) : text_one g a !! "type" = a !! "type".
Proof.
  unfold text_one. destruct (has_type is_text a); [|done].
  destruct (truthy _); [|done]. destruct (g _); [|done].
  by rewrite lookup_insert_ne.
Qed.

Lemma enrich_one_idempotent (a : obj) :
  enrich_one f g (enrich_one f g a) = enrich_one f g a.
Proof.
  unfold enrich_one.
  destruct (has_type is_image a) eqn:Hi.
  - assert (Hi' : has_type is_image (image_one f a) = true).
    { unfold has_type. rewrite image_one_type. exact Hi. }
    assert (Hkeep : text_one g (image_one f a) = image_one f a).
    { unfold text_one. by rewrite (image_is_not_text _ Hi'). }
    by rewrite Hkeep, image_one_idempotent, Hkeep.
  - assert (Hid : image_one f a = a) by (unfold image_one; by rewrite Hi).
    rewrite Hid.
    assert (Hkeep : image_one f (text_one g a) = text_one g a).
    { unfold image_one, has_type. rewrite text_one_type.
      unfold has_type in Hi. by rewrite Hi. }
    by rewrite Hkeep, text_one_idempotent.
Qed.



End Stateless.

End EnrichMore.

(** *** The enrichment on the samples *)

Lemma enrich_missing_type_witness :
  Enrich.enrich_json_with_summaries Sample.describe_image Sample.tag_text
    [Sample.narrative; MoreSamples.untyped; Sample.image] 0%nat
  = (Enrich.State [Sample.narrative; MoreSamples.untyped; Sample.image] [] [] 0%nat,
     Some (KeyError "type")).
Proof.
  apply (enrich_missing_type Sample.describe_image Sample.tag_text).
  apply Exists_cons_tl, Exists_cons_hd. reflexivity.
Defined.

Lemma sample_well_shaped :
  Spec.well_shaped [Sample.image; Sample.narrative; Sample.image_without_payload].
Proof. repeat constructor; try (by eexists); intros _; by eexists. Qed.



(** ** More on the renderer *)

Section MarkdownMore.

Import Markdown MdSpec MdMore.

Variable str_container : value → string.

Abbreviation element_body := (element_body str_container).
Abbreviation render_element := (render_element str_container).
Abbreviation render_elements := (render_elements str_container).
Abbreviation render_chunk := (render_chunk str_container).
Abbreviation chunk_body := (chunk_body str_container).
Abbreviation run := (run str_container).
Abbreviation generate_markdown := (generate_markdown str_container).
Abbreviation generate_markdown_console := (generate_markdown_console str_container).
Abbreviation chunk_markup := (chunk_markup str_container).
Abbreviation element_markup := (element_markup str_container).

(** *** Page numbers in any order *)

Lemma breaks_cons p q (rest : list Z) :
  breaks (p :: q :: rest)
  = ((if Z.eqb p q then 0 else 1) + breaks (q :: rest))%nat.
Proof. reflexivity. Qed.

Lemma pages_length_breaks l :
  length (pages l)
  = match l with [] => 0%nat | _ => S (breaks (map fst l)) end.
Proof.
  induction l as [|[p m] rest IH]; [done|]. rewrite pages_unfold.
  destruct (pages rest) as [|[q ms] g] eqn:Hp.
  - apply pages_nil_inv in Hp as ->. done.
  - destruct (pages_head _ _ _ _ Hp) as (m' & rest' & ->).
    cbn [map fst]. cbn [map fst length] in IH. rewrite breaks_cons.
    destruct (p =? q); cbn [length]; lia.
Qed.

Lemma pages_neighbours l :
  ∀ i p ms q ms',
    pages l !! i = Some (p, ms) → pages l !! S i = Some (q, ms') → p ≠ q.
Proof.
  induction l as [|[p0 m] rest IH]; [done|]. rewrite pages_unfold.
  destruct (pages rest) as [|[q0 ms0] g] eqn:Hp; [by intros [|i]|].
  destruct (p0 =? q0) eqn:Hpq.
  - apply Z.eqb_eq in Hpq as ->. intros [|i] p ms q ms'; simpl.
    + intros [= <- <-] Hq. by apply (IH 0%nat q0 ms0 q ms').
    + intros H1 H2. by apply (IH (S i) p ms q ms').
  - apply Z.eqb_neq in Hpq. intros [|i] p ms q ms'; simpl.
    + by intros [= <- <-] [= <- <-].
    + intros H1 H2. by apply (IH i p ms q ms').
Qed.

Lemma generate_markdown_pages (chunks : list obj) (pgs : list Z) :
  Forall well_formed_chunk chunks →
  map first_page chunks = map SInt pgs →
  generate_markdown chunks
  = Ok (nl +:+ concat_str
                 (map page_block (pages (zip pgs (map chunk_markup chunks))))).
Proof.
  intros Hwf Hpg. unfold Markdown.generate_markdown, Markdown.run.
  destruct chunks as [|c rest].
  - destruct pgs; [|done]. simpl. by rewrite append_nil_r.
  - destruct pgs as [|p pgs]; [done|]. simpl in Hpg. injection Hpg as Hp Hpg.
    apply Forall_cons in Hwf as [Hc Hwf].
    destruct (well_formed_renders str_container c Hc) as [Hne _].
    cbn [for_each]. rewrite (chunk_body_well_formed str_container _ c p Hc Hp).
    cbn [current_page markdown_content page_content console].
    rewrite (bool_decide_true (SNone = SNone)) by done.
    cbn [negb]. rewrite andb_false_r, append_nil_l.
    destruct (run_from str_container rest pgs nl p (chunk_markup c) [] Hwf Hpg Hne)
      as (s' & -> & ->).
    done.
Qed.


(** *** Chunks without page numbers *)

Lemma chunk_body_renders (s : state) c :
  well_formed_chunk c →
  let flush := negb (py_eq (first_page c) (current_page s))
               && negb (bool_decide (current_page s = SNone)) in
  chunk_body s c
  = (State (if flush
            then markdown_content s +:+ page_content s
                 +:+ PAGE_FOOTER (current_page s)
            else markdown_content s)
           (first_page c)
           ((if flush then "" else page_content s) +:+ chunk_markup c)
           (console s), None).
Proof.
  intros Hwf. destruct (well_formed_renders str_container c Hwf) as [_ Hrender].
  destruct Hwf as (_ & _ & e & l & Hoe & _).
  unfold first_page. rewrite Hoe.
  unfold Markdown.chunk_body, no_orig_elements. rewrite Hoe. simpl.
  rewrite Hrender. done.
Qed.

Lemma run_without_pages chunks :
  ∀ mc pc cons,
    Forall well_formed_chunk chunks →
    Forall (λ c, first_page c = SNone) chunks →
    for_each chunk_body (State mc SNone pc cons) chunks
    = (State mc SNone (pc +:+ concat_str (map chunk_markup chunks)) cons, None).
Proof.
  induction chunks as [|c rest IH]; intros mc pc cons Hwf Hnone.
  - simpl. by rewrite append_nil_r.
  - apply Forall_cons in Hwf as [Hc Hwf].
    apply Forall_cons in Hnone as [Hp Hnone].
    cbn [for_each]. rewrite (chunk_body_renders _ c Hc), Hp.
    cbn [current_page markdown_content page_content console].
    rewrite (bool_decide_true (SNone = SNone)) by done.
    cbn [negb]. rewrite andb_false_r. rewrite IH by done.
    cbn [map]. by rewrite concat_str_cons, append_assoc.
Qed.


(** *** All the chunks without original elements at once *)

Lemma chunk_body_kept (s : state) c :
  no_orig_elements c = false →
  snd (chunk_body s c) = None →
  console (fst (chunk_body s c)) = console s.
Proof.
  intros Hno. unfold Markdown.chunk_body. rewrite Hno.
  destruct (first_element _); [|done].
  by destruct (Markdown.render_chunk _ _ _).
Qed.

Lemma for_each_orphans l :
  ∀ s s' : state, same_document s s' →
    snd (for_each chunk_body s l)
    = snd (for_each chunk_body s' (filter (λ c, no_orig_elements c = false) l))
    ∧ same_document
        (fst (for_each chunk_body s l))
        (fst (for_each chunk_body s' (filter (λ c, no_orig_elements c = false) l))).
Proof.
  induction l as [|c rest IH]; intros s s' Hsame; [done|].
  rewrite filter_cons. destruct (no_orig_elements c) eqn:Hno.
  - rewrite decide_False by done. cbn [for_each].
    assert (Hstep : chunk_body s c
              = (State (markdown_content s) (current_page s) (page_content s)
                   (console s ++ [warning_of c]), None)).
    { unfold Markdown.chunk_body. by rewrite Hno. }
    rewrite Hstep. apply IH.
    destruct Hsame as (? & ? & ?). by split_and!.
  - rewrite decide_True by done. cbn [for_each].
    destruct s as [mc cp pc cons1], s' as [mc2 cp2 pc2 cons2].
    destruct Hsame as (Hmc & Hcp & Hpc). simpl in Hmc, Hcp, Hpc. subst mc2 cp2 pc2.
    destruct (chunk_body_console str_container mc cp pc cons1 cons2 c) as [Hr Hs].
    destruct (chunk_body (State mc cp pc cons1) c) as [t1 r1].
    destruct (chunk_body (State mc cp pc cons2) c) as [t2 r2].
    simpl in Hr, Hs. subst r2. destruct r1; [done|]. by apply IH.
Qed.

Lemma for_each_warnings l :
  ∀ s : state, snd (for_each chunk_body s l) = None →
    console (fst (for_each chunk_body s l))
    = (console s
       ++ map warning_of (filter (λ c, no_orig_elements c = true) l))%list.
Proof.
  induction l as [|c rest IH]; intros s Hr.
  - simpl. by rewrite app_nil_r.
  - rewrite filter_cons. cbn [for_each] in *.
    destruct (no_orig_elements c) eqn:Hno.
    + rewrite decide_True by done.
      assert (Hstep : chunk_body s c
                = (State (markdown_content s) (current_page s) (page_content s)
                     (console s ++ [warning_of c]), None)).
      { unfold Markdown.chunk_body. by rewrite Hno. }
      rewrite Hstep in *. rewrite (IH _ Hr). simpl. by rewrite <- app_assoc.
    + rewrite decide_False by done.
      pose proof (chunk_body_kept s c Hno) as Hk.
      destruct (chunk_body s c) as [s1 [e|]]; [done|].
      rewrite (IH _ Hr). simpl in Hk. by rewrite Hk.
Qed.


(** *** The markup of a chunk *)

Lemma render_elements_markup item pc (l : list (gmap string scalar)) :
  Forall (λ e : gmap string scalar, is_Some (e !! "text")) l →
  render_elements item pc l
  = Ok (pc +:+ concat_str (map (element_markup item) l)).
Proof.
  intros H. revert pc. induction H as [|e rest He _ IH]; intros pc.
  - simpl. by rewrite append_nil_r.
  - cbn [Markdown.render_elements map]. unfold Markdown.render_element.
    unfold MdMore.element_markup at 1.
    destruct (element_body_is_Ok str_container item e He) as [m ->].
    rewrite !bind_Ok, IH, concat_str_cons. unfold element_tag_of.
    by rewrite !append_assoc.
Qed.

(** A chunk with an [id], a string [text] and original elements that all
    have a [text] adds to the page its opening (the identifier and the
    quoted text), the markup of each original element in order, and the
    two closing tags.  An element of type Title gives its heading whether
    or not the chunk has a summary, and an element of a type the renderer
    does not know gives its tag line and nothing else. *)
Theorem render_chunk_structure (c : obj) (id : value) (t : string)
    (els : list (gmap string scalar)) (pc : string) :
  c !! "id" = Some id →
  c !! "text" = Some (VScalar (SStr t)) →
  c !! "orig_elements" = Some (VList els) →
  Forall (λ e : gmap string scalar, is_Some (e !! "text")) els →
  render_chunk c pc
  = Ok (pc +:+ chunk_open (str_value str_container id) (quoted t)
        +:+ concat_str (map (element_markup c) els) +:+ chunk_close)
  ∧ (∀ e, e !! "type" = Some (SStr "Title") →
       element_markup c e
       = element_tag_of e +:+ title_md (str (get_or e "text" "No content")))
  ∧ (∀ e, unknown_type e → element_markup c e = element_tag_of e).
Proof.
  intros Hid Ht Hoe Hall. split_and!.
  - unfold Markdown.render_chunk, chunk_text_of. rewrite Ht, Hid, Hoe, bind_Ok.
    rewrite (render_elements_markup c _ els Hall), bind_Ok.
    unfold quoted. by rewrite !append_assoc.
  - intros e He. unfold MdMore.element_markup, Markdown.element_body, get_or.
    by rewrite He.
  - intros e He. unfold MdMore.element_markup, Markdown.element_body.
    unfold unknown_type, known_types in He.
    repeat (apply Forall_cons in He as [? He]).
    repeat match goal with H : eq_str _ _ = false |- _ => rewrite H; clear H end.
    simpl. by rewrite append_nil_r.
Qed.

(** *** Missing keys that end the rendering *)

Lemma render_elements_payload_without_text item pc l1 l2
    (e : gmap string scalar) :
  Forall (λ e : gmap string scalar, is_Some (e !! "text")) l1 →
  visual_element e →
  truthy_scalar (get e "image") = true →
  e !! "text" = None →
  render_elements item pc (l1 ++ e :: l2) = Raise (KeyError "text").
Proof.
  intros Hall Hvis Himg Ht. revert pc.
  induction Hall as [|x rest Hx _ IH]; intros pc.
  - cbn [app Markdown.render_elements]. unfold Markdown.render_element.
    assert (Hbody : element_body item e = Raise (KeyError "text")).
    { unfold Markdown.element_body, get_or.
      destruct Hvis as [-> | ->]; simpl; by rewrite Himg, Ht. }
    by rewrite Hbody.
  - cbn [app Markdown.render_elements]. unfold Markdown.render_element.
    destruct (element_body_is_Ok str_container item x Hx) as [m ->].
    rewrite !bind_Ok. apply IH.
Qed.

(** An Image or Table element with a payload but no [text] key ends the
    rendering of the whole document with [KeyError], although the same
    element without the payload would have been rendered. *)
Theorem generate_markdown_payload_without_text (c : obj) (id : value) (t : string)
    (l1 l2 : list (gmap string scalar)) (e : gmap string scalar)
    (rest : list obj) (s : state) :
  c !! "id" = Some id →
  c !! "text" = Some (VScalar (SStr t)) →
  c !! "orig_elements" = Some (VList (l1 ++ e :: l2)) →
  Forall (λ e : gmap string scalar, is_Some (e !! "text")) l1 →
  visual_element e →
  truthy_scalar (get e "image") = true →
  e !! "text" = None →
  chunk_body s c = (s, Some (KeyError "text"))
  ∧ generate_markdown (c :: rest) = Raise (KeyError "text").
Proof.
  intros Hid Ht Hoe Hall Hvis Himg Hno.
  assert (Hstep : ∀ s0 : state, chunk_body s0 c = (s0, Some (KeyError "text"))).
  { intros s0.
    pose proof (λ pc, render_elements_payload_without_text c pc l1 l2 e
                        Hall Hvis Himg Hno) as Hraise.
    assert (Hfirst : ∃ first, first_element (VList (l1 ++ e :: l2)) = Ok first).
    { destruct l1; simpl; by eexists. }
    destruct Hfirst as [first Hfirst].
    remember (l1 ++ e :: l2)%list as els eqn:Hels.
    unfold Markdown.chunk_body, no_orig_elements. rewrite Hoe.
    change (default (VScalar SNone) (Some (VList els))) with (VList els).
    rewrite Hfirst.
    unfold Markdown.render_chunk, chunk_text_of. rewrite Ht, Hid, Hoe, bind_Ok.
    by rewrite Hraise. }
  split; [apply Hstep|].
  unfold Markdown.generate_markdown, Markdown.run. cbn [for_each].
  by rewrite Hstep.
Qed.

(** A chunk with original elements but without a [text], with a [text]
    that is not a string, or without an [id], ends the rendering of the
    whole document with [KeyError] or [AttributeError]. *)
Theorem generate_markdown_incomplete_chunk (c : obj)
    (e : gmap string scalar) (l : list (gmap string scalar)) (rest : list obj) :
  c !! "orig_elements" = Some (VList (e :: l)) →
  (c !! "text" = None → generate_markdown (c :: rest) = Raise (KeyError "text"))
  ∧ (∀ v, c !! "text" = Some v → (∀ t, v ≠ VScalar (SStr t)) →
       generate_markdown (c :: rest) = Raise AttributeError)
  ∧ (∀ t, c !! "text" = Some (VScalar (SStr t)) → c !! "id" = None →
       generate_markdown (c :: rest) = Raise (KeyError "id")).
Proof.
  intros Hoe.
  assert (Hgen : ∀ x, (∀ pc, render_chunk c pc = Raise x) →
                      generate_markdown (c :: rest) = Raise x).
  { intros x Hx. unfold Markdown.generate_markdown, Markdown.run. cbn [for_each].
    unfold Markdown.chunk_body, no_orig_elements. rewrite Hoe. simpl.
    by rewrite Hx. }
  split_and!.
  - intros Ht. apply Hgen. intros pc.
    unfold Markdown.render_chunk, chunk_text_of. by rewrite Ht.
  - intros v Ht Hv. apply Hgen. intros pc.
    unfold Markdown.render_chunk, chunk_text_of. rewrite Ht.
    destruct v as [[| | |t]| |]; try done. by destruct (Hv t).
  - intros t Ht Hid. apply Hgen. intros pc.
    unfold Markdown.render_chunk, chunk_text_of. by rewrite Ht, Hid.
Qed.

End MarkdownMore.

(** *** The renderer on more samples *)



Lemma render_chunk_structure_witness :
  Markdown.render_chunk Sample.no_container MoreSamples.titled ""
  = Ok (Markdown.chunk_open "t" " > Maintenance"
        +:+ (Markdown.element_tag "Title" "t-1" +:+ Markdown.title_md "Maintenance")
        +:+ Markdown.element_tag "PageBreak" "b-1"
        +:+ Markdown.chunk_close).
Proof.
  destruct (render_chunk_structure Sample.no_container MoreSamples.titled
              (VScalar (SStr "t")) "Maintenance"
              [MoreSamples.title; MoreSamples.page_break] "")
    as (Hdoc & _).
  - reflexivity.
  - reflexivity.
  - reflexivity.
  - repeat constructor; by eexists.
  - rewrite Hdoc. reflexivity.
Defined.

Lemma generate_markdown_payload_without_text_witness :
  Markdown.generate_markdown Sample.no_container
    [MoreSamples.with_untitled_image; Sample.chunk "a" 1]
  = Raise (KeyError "text").
Proof.
  destruct (generate_markdown_payload_without_text Sample.no_container
              MoreSamples.with_untitled_image (VScalar (SStr "u")) "See the figure."
              [Sample.paragraph "u-1" 1] [] MoreSamples.untitled_image
              [Sample.chunk "a" 1] (Markdown.State nl SNone "" []))
    as (_ & Hdoc).
  - reflexivity.
  - reflexivity.
  - reflexivity.
  - repeat constructor. by eexists.
  - by left.
  - reflexivity.
  - reflexivity.
  - exact Hdoc.
Defined.

Lemma generate_markdown_incomplete_chunk_witness :
  Markdown.generate_markdown Sample.no_container [MoreSamples.textless]
  = Raise (KeyError "text")
  ∧ Markdown.generate_markdown Sample.no_container [MoreSamples.numbered_text]
    = Raise AttributeError
  ∧ Markdown.generate_markdown Sample.no_container [MoreSamples.nameless]
    = Raise (KeyError "id").
Proof.
  split_and!.
  - destruct (generate_markdown_incomplete_chunk Sample.no_container
                MoreSamples.textless (Sample.paragraph "x-1" 1) [] [] eq_refl)
      as (H & _).
    apply H. reflexivity.
  - destruct (generate_markdown_incomplete_chunk Sample.no_container
                MoreSamples.numbered_text (Sample.paragraph "z-1" 1) [] [] eq_refl)
      as (_ & H & _).
    apply (H (VScalar (SInt 7))); [reflexivity|discriminate].
  - destruct (generate_markdown_incomplete_chunk Sample.no_container
                MoreSamples.nameless (Sample.paragraph "y-1" 1) [] [] eq_refl)
      as (_ & _ & H).
    apply (H "Rinse the filter."); reflexivity.
Defined.

(** ** The Markdown of a chunk file *)

Section DebuggingProps.

Import Markdown Debugging.

Variable str_container : value → string.

Lemma for_each_all_orphans l :
  ∀ s : state, Forall (λ c, no_orig_elements c = true) l →
    snd (for_each (chunk_body str_container) s l) = None
    ∧ MdSpec.same_document s (fst (for_each (chunk_body str_container) s l)).
Proof.
  induction l as [|c rest IH]; intros s Hall; [done|].
  apply Forall_cons in Hall as [Hc Hall]. cbn [for_each].
  unfold Markdown.chunk_body at 1 3. rewrite Hc.
  destruct (IH (State (markdown_content s) (current_page s) (page_content s)
                  (console s ++ [MissingOrigElements
                                   (default (VScalar (SStr "unknown")) (c !! "id"))]))
              Hall) as [Hr Hs].
  split; [done|]. destruct Hs as (? & ? & ?). by split_and!.
Qed.

Lemma generate_markdown_all_orphans l :
  Forall (λ c, no_orig_elements c = true) l →
  generate_markdown str_container l = Ok nl.
Proof.
  intros Hall. unfold generate_markdown, run.
  destruct (for_each_all_orphans l (State nl SNone "" []) Hall) as [Hr Hs].
  destruct (for_each _ _ l) as [s r]. simpl in Hr, Hs. subst r.
  destruct Hs as (Hmc & _ & Hpc). unfold finish. simpl in Hmc, Hpc.
  by rewrite <- Hpc, <- Hmc.
Qed.

Lemma convert_orphan chunk chunk_dict :
  convert chunk = Ok chunk_dict → no_orig_elements chunk_dict = true.
Proof.
  unfold convert.
  destruct (chunk !! "metadata") as [metadata|]; [|done].
  destruct (chunk !! "element_id") as [chunk_id|]; [|done].
  destruct (contains metadata "orig_elements") as [[|]|]; simpl; [|..|done].
  - destruct (subscript metadata "orig_elements"); done.
  - destruct (chunk !! "text"); [|done]. destruct (chunk !! "type"); [|done].
    by intros [= <-].
Qed.

Lemma convert_all_orphans chunks chunks_data :
  convert_all chunks = Ok chunks_data →
  Forall (λ c, no_orig_elements c = true) chunks_data.
Proof.
  revert chunks_data. induction chunks as [|c rest IH]; intros chunks_data; simpl.
  - by intros [= <-].
  - destruct (convert c) as [d|] eqn:Hc; [|done]. simpl.
    destruct (convert_all rest) as [ds|]; [|done]. simpl. intros [= <-].
    constructor; [by apply (convert_orphan c)|by apply IH].
Qed.

(** Because [process_data] returns nothing, no original element ever
    reaches the renderer: whatever the chunk file holds, the conversion
    raises, or every chunk is skipped and the document written is a single
    newline. *)
Theorem debugging_markdown_is_empty (chunks : list obj) :
  debugging_markdown str_container chunks = Ok nl
  ∨ ∃ e, debugging_markdown str_container chunks = Raise e.
Proof.
  unfold debugging_markdown.
  destruct (convert_all chunks) as [chunks_data|e] eqn:Hc; [|right; by eexists].
  left. simpl. apply generate_markdown_all_orphans.
  by apply (convert_all_orphans chunks).
Qed.

Lemma convert_plain chunk :
  plain_chunk chunk → ∃ chunk_dict, convert chunk = Ok chunk_dict.
Proof.
  intros ((metadata & Hm & Hc) & [chunk_id Hid] & [text Ht] & [type Hty]).
  unfold convert. rewrite Hm, Hid, Hc. simpl. rewrite Ht, Hty. by eexists.
Qed.

Lemma convert_all_plain chunks :
  Forall plain_chunk chunks → ∃ chunks_data, convert_all chunks = Ok chunks_data.
Proof.
  induction 1 as [|c rest Hc _ [ds IH]]; simpl; [by eexists|].
  destruct (convert_plain c Hc) as [d ->]. rewrite IH. by eexists.
Qed.


End DebuggingProps.

(** ** File names and folders *)

Section FilesProps.

Import Os Files.

Lemma endswith_unfold (s x : string) :
  endswith s x
  = String.eqb x s
    || match s with
       | EmptyString => false
       | String _ rest => endswith rest x
       end.
Proof. by destruct s. Qed.

Lemma endswith_refl (s : string) : endswith s s = true.
Proof. by rewrite endswith_unfold, String.eqb_refl. Qed.

Lemma endswith_app (a b x : string) :
  endswith b x = true → endswith (a +:+ b) x = true.
Proof.
  intros H. induction a as [|c a IH]; [done|].
  rewrite append_cons, endswith_unfold, IH. apply orb_true_r.
Qed.

Lemma endswith_inv (s x : string) :
  endswith s x = true → ∃ a, s = a +:+ x.
Proof.
  induction s as [|c s IH]; rewrite endswith_unfold.
  - rewrite orb_false_r. intros ->%String.eqb_eq. by exists "".
  - intros [->%String.eqb_eq|H]%orb_true_iff; [by exists ""|].
    destruct (IH H) as [a ->]. by exists (String c a).
Qed.

Lemma join_endswith (d f x : string) :
  endswith f x = true → endswith (join d f) x = true.
Proof.
  intros H. unfold join. destruct (String.prefix "/" f); [done|].
  destruct (_ || _); [by apply endswith_app|].
  apply endswith_app. by apply (endswith_app "/").
Qed.

Lemma basename_slashless (f : string) : has_slash f = false → basename f = f.
Proof. destruct f; simpl; [done|]. by intros ->. Qed.

Lemma has_slash_app (a b : string) :
  has_slash (a +:+ String slash b) = true.
Proof.
  induction a as [|c a IH]; [done|].
  rewrite append_cons. simpl. rewrite IH. apply orb_true_r.
Qed.

Lemma basename_app_slash (a f : string) :
  has_slash f = false → basename (a +:+ String slash f) = f.
Proof.
  intros Hf. induction a as [|c a IH].
  - rewrite append_nil_l. simpl. by apply basename_slashless.
  - rewrite append_cons.
    change (basename (String c (a +:+ String slash f)))
      with (if has_slash (String c (a +:+ String slash f))
            then basename (a +:+ String slash f)
            else String c (a +:+ String slash f)).
    replace (has_slash (String c (a +:+ String slash f))) with true; [done|].
    simpl. rewrite has_slash_app. by rewrite orb_true_r.
Qed.

Lemma basename_join (d f : string) :
  has_slash f = false → basename (join d f) = f.
Proof.
  intros Hf. unfold join.
  destruct (String.prefix "/" f) eqn:Hp.
  { destruct f as [|c f]; [done|]. simpl in Hp, Hf.
    destruct (Ascii.eqb_spec c slash) as [->|Hne]; [done|].
    destruct c as [[] [] [] [] [] [] [] []]; try done. }
  destruct (String.eqb d "") eqn:Hd.
  { apply String.eqb_eq in Hd as ->. by apply basename_slashless. }
  simpl. destruct (endswith d "/") eqn:He.
  - destruct (endswith_inv _ _ He) as [a ->].
    rewrite append_assoc. by apply basename_app_slash.
  - by apply basename_app_slash.
Qed.

(** For a directory whose listing has no slash in a name, the paths that
    [get_files_with_extension] returns are, in listing order, the names
    that end with the extension, each under the directory: the base names
    of the paths are those names, every path ends with the extension, and
    joining the directory to the base name of a path, as [process_pdfs]
    does, gives the path back. *)
Theorem get_files_with_extension_paths (listing : list string)
    (directory file_extension : string) :
  Forall (λ f, has_slash f = false) listing →
  map basename (get_files_with_extension listing directory file_extension)
  = List.filter (λ f, endswith f file_extension) listing
  ∧ Forall (λ p, endswith p file_extension = true
                 ∧ pdf_path directory p = p)
           (get_files_with_extension listing directory file_extension).
Proof.
  unfold get_files_with_extension, pdf_path.
  induction 1 as [|f rest Hf _ [IH1 IH2]]; [by split|].
  simpl. destruct (endswith f file_extension) eqn:He; [|by split].
  simpl. rewrite IH1, (basename_join _ _ Hf). split; [done|].
  constructor; [|done]. split; [by apply join_endswith|].
  by rewrite (basename_join _ _ Hf).
Qed.

(** *** Double extensions *)

Lemma replace_from_dotless (base rest : string) :
  dotless base = true →
  replace_from ".json.json" ".json" 0 (base +:+ rest)
  = base +:+ replace_from ".json.json" ".json" 0 rest.
Proof.
  induction base as [|c base IH]; [done|]. simpl dotless.
  intros [Hc Hb]%andb_true_iff. rewrite !append_cons.
  cbn [replace_from].
  replace (String.prefix ".json.json" (String c (base +:+ rest))) with false.
  - by rewrite IH.
  - change (String.prefix ".json.json" (String c (base +:+ rest)))
      with (if ascii_dec "." c
            then String.prefix "json.json" (base +:+ rest) else false).
    destruct (ascii_dec "." c) as [<-|]; [|done].
    by rewrite Ascii.eqb_refl in Hc.
Qed.

Lemma cleanup_new_names_aux (base : string) :
  dotless base = true →
  endswith (base +:+ ".json.json") ".json.json" = true
  ∧ new_name (base +:+ ".json.json") = base +:+ ".json"
  ∧ endswith (base +:+ ".json") ".json.json" = false.
Proof.
  intros Hb. unfold new_name, replace. split_and!.
  - apply endswith_app, endswith_refl.
  - by rewrite (replace_from_dotless base _ Hb).
  - induction base as [|c base IH]; [done|].
    simpl in Hb. apply andb_true_iff in Hb as [Hc Hb].
    rewrite append_cons, endswith_unfold, (IH Hb), orb_false_r.
    apply String.eqb_neq. intros Heq.
    injection Heq as <- _. done.
Qed.

(** A name made of a part without dots and the double extension is
    selected and loses one [.json].  With a triple extension it is
    selected too, but the new name still ends with [.json.json]: one pass
    does not always leave the directory free of double extensions. *)
Theorem cleanup_new_names (base : string) :
  dotless base = true →
  endswith (base +:+ ".json.json") ".json.json" = true
  ∧ new_name (base +:+ ".json.json") = base +:+ ".json"
  ∧ endswith (base +:+ ".json.json.json") ".json.json" = true
  ∧ new_name (base +:+ ".json.json.json") = base +:+ ".json.json".
Proof.
  intros Hb. unfold new_name, replace. split_and!.
  - apply endswith_app, endswith_refl.
  - by rewrite (replace_from_dotless base _ Hb).
  - by apply endswith_app.
  - by rewrite (replace_from_dotless base _ Hb).
Qed.

Lemma rename_all {A : Type} (target : string → string) (sel : list string) :
  ∀ fs : gmap string A,
    NoDup sel →
    (∀ f, f ∈ sel → is_Some (fs !! f)) →
    NoDup (map target sel) →
    (∀ f, f ∈ sel → fs !! target f = None) →
    ∃ fs', for_each (λ fs f, rename fs f (target f)) fs sel = (fs', None)
      ∧ (∀ f, f ∈ sel → fs' !! target f = fs !! f ∧ fs' !! f = None)
      ∧ (∀ g, g ∉ sel → g ∉ map target sel → fs' !! g = fs !! g).
Proof.
  induction sel as [|f rest IH]; intros fs Hnd Hin Hndt Hfresh.
  - exists fs. split; [done|]. split; [|done]. intros f Hf. by apply elem_of_nil in Hf.
  - apply NoDup_cons in Hnd as [Hf_rest Hnd]. cbn [map] in Hndt.
    apply NoDup_cons in Hndt as [Ht_rest Hndt].
    destruct (Hin f) as [c Hc]; [by left|].
    assert (Htf : fs !! target f = None) by (apply Hfresh; by left).
    assert (Hne : target f ≠ f) by (intros Heq; rewrite Heq in Htf; congruence).
    assert (Hrest_ne : ∀ f', f' ∈ rest → f' ≠ f ∧ f' ≠ target f
                                ∧ target f' ≠ target f ∧ target f' ≠ f).
    { intros f' Hf'. split_and!.
      - intros ->. done.
      - intros ->. destruct (Hin (target f)) as [? Hx]; [by right|]. congruence.
      - intros Heq. apply Ht_rest. rewrite <- Heq.
        apply list_elem_of_In, in_map, list_elem_of_In. done.
      - intros Heq. assert (fs !! target f' = None) by (apply Hfresh; by right).
        congruence. }
    cbn [for_each]. unfold rename at 1. rewrite Hc.
    destruct (IH (<[target f := c]> (delete f fs))) as (fs' & Hrun & Hmoved & Hkept);
      [done| | done | |].
    { intros f' Hf'. destruct (Hrest_ne f' Hf') as (? & ? & _).
      rewrite lookup_insert_ne, lookup_delete_ne by done. apply Hin. by right. }
    { intros f' Hf'. destruct (Hrest_ne f' Hf') as (_ & _ & ? & ?).
      rewrite lookup_insert_ne, lookup_delete_ne by done. apply Hfresh. by right. }
    exists fs'. split; [done|]. split.
    + intros f' [->|Hf']%elem_of_cons.
      * assert (Hn1 : f ∉ map target rest).
        { intros (f' & Heq & Hf')%list_elem_of_In%in_map_iff.
          apply list_elem_of_In in Hf'. by destruct (Hrest_ne f' Hf') as (_ & _ & _ & ?). }
        assert (Hn2 : target f ∉ rest).
        { intros Hx. by destruct (Hrest_ne _ Hx) as (_ & ? & _). }
        rewrite (Hkept (target f) Hn2 Ht_rest), (Hkept f Hf_rest Hn1).
        rewrite lookup_insert_eq, lookup_insert_ne, lookup_delete_eq by done. done.
      * destruct (Hmoved f' Hf') as [H1 H2]. destruct (Hrest_ne f' Hf') as (? & ? & _).
        rewrite H1, H2, lookup_insert_ne, lookup_delete_ne by done. done.
    + intros g Hg Hgt. rewrite not_elem_of_cons in Hg. destruct Hg as [Hgf Hg].
      cbn [map] in Hgt. rewrite not_elem_of_cons in Hgt. destruct Hgt as [Hgtf Hgt].
      rewrite (Hkept g Hg Hgt), lookup_insert_ne, lookup_delete_ne by done. done.
Qed.

(** When every selected file exists, the new names are pairwise different
    and none of them is taken, the pass ends without an exception, each
    selected file is found under its new name with its content and no
    longer under the old one, and every other file is as it was. *)
Theorem cleanup_file_extensions_moves {A : Type} (fs : gmap string A)
    (listing : list string) :
  NoDup listing →
  (∀ f, f ∈ chunked_files listing → is_Some (fs !! f)) →
  NoDup (map new_name (chunked_files listing)) →
  (∀ f, f ∈ chunked_files listing → fs !! new_name f = None) →
  ∃ fs', cleanup_file_extensions fs listing = (fs', None)
    ∧ (∀ f, f ∈ chunked_files listing →
         fs' !! new_name f = fs !! f ∧ fs' !! f = None)
    ∧ (∀ g, g ∉ chunked_files listing →
         g ∉ map new_name (chunked_files listing) → fs' !! g = fs !! g).
Proof.
  intros Hnd Hin Hndt Hfresh. unfold cleanup_file_extensions.
  apply rename_all; try done. unfold chunked_files.
  by apply NoDup_ListNoDup, List.NoDup_filter, NoDup_ListNoDup.
Qed.

(** A new name that is taken is overwritten: when the directory holds
    both [a.json.json] and [a.json], the pass leaves one file, [a.json],
    with the content of [a.json.json]. *)
Theorem cleanup_file_extensions_overwrites {A : Type} (fs : gmap string A)
    (base : string) (chunked other : A) :
  dotless base = true →
  fs !! (base +:+ ".json.json") = Some chunked →
  fs !! (base +:+ ".json") = Some other →
  ∃ fs', cleanup_file_extensions fs [base +:+ ".json"; base +:+ ".json.json"]
         = (fs', None)
    ∧ fs' !! (base +:+ ".json") = Some chunked
    ∧ fs' !! (base +:+ ".json.json") = None
    ∧ size fs' = (size fs - 1)%nat.
Proof.
  intros Hb Hc Ho.
  destruct (cleanup_new_names_aux base Hb) as (Hsel & Hnew & Hshort).
  unfold cleanup_file_extensions, chunked_files. cbn [List.filter].
  rewrite Hshort, Hsel. cbn [for_each]. unfold rename. rewrite Hc, Hnew.
  eexists. split; [done|].
  assert (Hne : base +:+ ".json" ≠ base +:+ ".json.json").
  { clear. induction base as [|c base IH]; [done|].
    rewrite !append_cons. intros [= Heq]. by apply IH. }
  split_and!.
  - by rewrite lookup_insert_eq.
  - rewrite lookup_insert_ne by done. by rewrite lookup_delete_eq.
  - rewrite map_size_insert_Some.
    + rewrite map_size_delete, Hc. simpl. lia.
    + rewrite lookup_delete_ne by done. rewrite Ho. by eexists.
Qed.

End FilesProps.

(** ** Loading the database *)

Section PopulateProps.

Import Populate.

Lemma py_range_steps (n : nat) :
  py_range 0 n BATCH_SIZE
  = map (λ k, k * BATCH_SIZE)%nat (seq 0 ((n + 2) / 3)).
Proof.
  unfold py_range, BATCH_SIZE.
  replace (n - 0 + 3 - 1)%nat with (n + 2)%nat by lia. done.
Qed.

Lemma batch_count_bounds (n : nat) :
  (n ≤ (n + 2) / 3 * 3)%nat ∧ (∀ k, k < (n + 2) / 3 → k * 3 < n)%nat.
Proof.
  pose proof (Nat.div_mod_eq (n + 2) 3) as Hdm.
  assert (Hub : ((n + 2) mod 3 < 3)%nat) by (apply Nat.mod_upper_bound; lia).
  split; [lia|]. intros k Hk. lia.
Qed.

Lemma concat_slices {A : Type} (l : list A) (m : nat) :
  concat (map (λ i, slice l i (i + BATCH_SIZE))
              (map (λ k, k * BATCH_SIZE)%nat (seq 0 m)))
  = take (m * BATCH_SIZE) l.
Proof.
  induction m as [|m IH]; [done|].
  rewrite seq_S, !map_app, concat_app, IH. simpl.
  rewrite app_nil_r. unfold slice.
  replace (m * BATCH_SIZE + BATCH_SIZE - m * BATCH_SIZE)%nat with BATCH_SIZE by lia.
  rewrite take_take_drop. f_equal. unfold BATCH_SIZE. lia.
Qed.

(** The batches are the documents cut in order into groups of three, the
    last one of one to three documents: put end to end they give the
    documents back, none is empty, and there are as many as the total that
    the progress line announces. *)
Theorem batches_partition {A : Type} (documents : list A) :
  concat (batches documents) = documents
  ∧ Forall (λ batch, 1 ≤ length batch ≤ BATCH_SIZE)%nat (batches documents)
  ∧ length (batches documents) = snd (progress (length documents) 0).
Proof.
  unfold batches. rewrite py_range_steps.
  destruct (batch_count_bounds (length documents)) as [Hcover Hinside].
  split_and!.
  - rewrite concat_slices. apply take_ge. unfold BATCH_SIZE. lia.
  - apply Forall_forall. intros batch Hb.
    apply list_elem_of_In, in_map_iff in Hb as (i & <- & Hi).
    apply in_map_iff in Hi as (k & <- & Hk). apply in_seq in Hk.
    unfold slice. rewrite length_take, length_drop. unfold BATCH_SIZE in *.
    specialize (Hinside k). lia.
  - rewrite !length_map, length_seq. unfold progress, BATCH_SIZE.
    cbn [snd]. f_equal. lia.
Qed.

Section Batches.

Context {W D : Type}.
Variable process_documents : W → list D → W * option exn.

Lemma for_each_batches (documents : list D) (starts : list nat) :
  (∀ w batch, snd (process_documents w batch) = None) →
  ∀ w printed,
    for_each (λ (s : W * list (nat * nat)) i,
                let batch := slice documents i (i + BATCH_SIZE) in
                let printed := (snd s ++ [progress (length documents) i])%list in
                match process_documents (fst s) batch with
                | (w', None) => ((w', printed), None)
                | (w', Some e) => ((w', printed), Some e)
                end)
             (w, printed) starts
    = ((fold_left (λ w batch, fst (process_documents w batch))
                  (map (λ i, slice documents i (i + BATCH_SIZE)) starts) w,
        (printed ++ map (progress (length documents)) starts)%list), None).
Proof.
  intros Hok. induction starts as [|i rest IH]; intros w printed.
  - simpl. by rewrite app_nil_r.
  - cbn [for_each map fold_left fst snd].
    pose proof (Hok w (slice documents i (i + BATCH_SIZE))) as Hr.
    destruct (process_documents w (slice documents i (i + BATCH_SIZE))) as [w' r].
    simpl in Hr. subst r. rewrite IH. cbn [fst]. by rewrite <- app_assoc.
Qed.

(** When [process_documents] does not raise, every batch is handed over
    once, in order, each in the world the previous one left, and the
    progress lines count from 1 to the number of batches. *)
Theorem process_documents_in_batches_all (w : W) (documents : list D) :
  (∀ w batch, snd (process_documents w batch) = None) →
  let total := length (batches documents) in
  process_documents_in_batches process_documents w documents
  = ((fold_left (λ w batch, fst (process_documents w batch)) (batches documents) w,
      map (λ k, (S k, total)) (seq 0 total)), None).
Proof.
  intros Hok. cbn zeta. unfold process_documents_in_batches.
  rewrite (for_each_batches documents _ Hok). unfold batches at 1.
  f_equal. f_equal. cbn [app].
  unfold batches. rewrite py_range_steps, !length_map, length_seq, map_map.
  apply map_ext. intros k. unfold progress, BATCH_SIZE.
  rewrite Nat.div_mul by done. f_equal; [lia|]. f_equal. lia.
Qed.

End Batches.

(** *** One document per file *)

Import PopulateSpec.

Lemma has_key_sources (acc : list (scalar * document)) (path : string) :
  Forall (λ item, ∃ p, fst item = SStr p ∧ source_of (snd item) = Some p) acc →
  has_key acc (SStr path) = true ↔ Some path ∈ kept_sources acc.
Proof.
  unfold has_key, kept_sources. induction 1 as [|[k d] acc (p & Hk & Hs) _ IH]; simpl.
  - split; [done|]. by intros ?%elem_of_nil.
  - simpl in Hk, Hs. subst k. rewrite Hs, orb_true_iff, elem_of_cons, IH.
    simpl. rewrite String.eqb_eq. split; intros [H|H]; auto; left; congruence.
Qed.

Lemma collect_collected (documents : list document) :
  ∀ acc done,
    collected acc done →
    Forall (λ d, is_Some (source_of d)) documents →
    ∃ out, collect acc documents = Ok out ∧ collected out (done ++ documents)%list.
Proof.
  induction documents as [|doc rest IH]; intros acc done Hinv Hall.
  - exists acc. by rewrite app_nil_r.
  - apply Forall_cons in Hall as [[path Hpath] Hall].
    assert (Hsrc : metadata doc !! "source" = Some (SStr path)).
    { unfold source_of in Hpath.
      destruct (metadata doc !! "source") as [[| | |p]|]; try done. congruence. }
    destruct Hinv as (Hkeys & Hsub & Hnd & Hseen & Hfirst).
    assert (Hold : ∀ item, item ∈ acc →
              ∃ i, ((done ++ [doc])%list : list document) !! i = Some (snd item)
                ∧ ∀ j x, (j < i)%nat → ((done ++ [doc])%list : list document) !! j = Some x →
                    source_of x ≠ source_of (snd item)).
    { intros item Hitem. destruct (Hfirst item Hitem) as (i & Hi & Hbefore).
      pose proof (lookup_lt_Some _ _ _ Hi) as Hlt.
      exists i. split; [by rewrite lookup_app_l|].
      intros j x Hj Hx. rewrite lookup_app_l in Hx by lia. by apply (Hbefore j). }
    cbn [collect]. rewrite Hsrc.
    destruct (has_key acc (SStr path)) eqn:Hk.
    + apply (has_key_sources acc path Hkeys) in Hk.
      destruct (IH acc (done ++ [doc])%list) as (out & Hrun & Hout); [|done|].
      { split_and!; [done|by apply sublist_inserts_r|done| |done].
        intros d [Hd| ->%list_elem_of_singleton]%elem_of_app; [by apply Hseen|].
        by rewrite Hpath. }
      exists out. split; [done|]. by rewrite <- app_assoc in Hout.
    + assert (Hnew : Some path ∉ kept_sources acc).
      { intros Hin. apply (has_key_sources acc path Hkeys) in Hin. congruence. }
      destruct (IH (acc ++ [(SStr path, doc)])%list (done ++ [doc])%list)
        as (out & Hrun & Hout); [|done|].
      { split_and!.
        - apply Forall_app. split; [done|]. constructor; [|done]. by exists path.
        - rewrite map_app. by apply sublist_app.
        - unfold kept_sources. rewrite map_app. apply NoDup_app.
          split; [done|]. split; [|apply NoDup_singleton].
          intros x Hx Hx2. apply list_elem_of_singleton in Hx2. subst x.
          simpl in Hx. rewrite Hpath in Hx. by apply Hnew.
        - intros d Hd. unfold kept_sources. rewrite map_app, elem_of_app.
          apply elem_of_app in Hd as [Hd| ->%list_elem_of_singleton].
          + left. by apply Hseen.
          + right. simpl. rewrite Hpath. by left.
        - intros item [Hitem| ->%list_elem_of_singleton]%elem_of_app;
            [by apply Hold|].
          exists (length done). split; [by apply list_lookup_middle|].
          intros j x Hj Hx. rewrite lookup_app_l in Hx by done. simpl.
          rewrite Hpath. intros Heq. apply Hnew. rewrite <- Heq.
          apply Hseen. by apply (list_elem_of_lookup_2 _ j). }
      exists out. split; [done|]. by rewrite <- app_assoc in Hout.
Qed.

(** Of the documents of the loader, which all name their file, only the
    first one of each file is kept, in the order of the loader: the result
    is a sublist of the documents, no two documents of it have the same
    source, every source has its document, and no earlier document of the
    loader has the source of a kept one.  The later documents of a file
    (the loader gives one per page) are dropped. *)
Theorem load_documents_first_per_source (documents : list document) :
  Forall (λ d, is_Some (source_of d)) documents →
  ∃ out, load_documents documents = Ok out
    ∧ out `sublist_of` documents
    ∧ NoDup (map source_of out)
    ∧ (∀ d, d ∈ documents → source_of d ∈ map source_of out)
    ∧ (∀ d, d ∈ out →
         ∃ i, documents !! i = Some d
           ∧ ∀ j x, (j < i)%nat → documents !! j = Some x →
               source_of x ≠ source_of d).
Proof.
  intros Hall.
  destruct (collect_collected documents [] []) as (acc & Hrun & Hinv); [|done|].
  { split_and!; try done; try apply NoDup_nil_2.
    - intros d Hd. by apply elem_of_nil in Hd.
    - intros item Hitem. by apply elem_of_nil in Hitem. }
  simpl in Hinv. destruct Hinv as (_ & Hsub & Hnd & Hseen & Hfirst).
  exists (map snd acc). unfold load_documents. rewrite Hrun. simpl.
  unfold kept_sources in *. rewrite map_map. split_and!; try done.
  intros d Hd. apply list_elem_of_In, in_map_iff in Hd as (item & <- & Hitem).
  apply Hfirst. by apply list_elem_of_In.
Qed.

(** *** Inserting a product *)

Section Products.

Context {W : Type}.
Variable select_product : W → scalar → W * result (list (gmap string scalar)).
Variable insert_row : W → gmap string scalar → W * result (list (gmap string scalar)).

Abbreviation attempt := (attempt select_product insert_row).
Abbreviation retry := (retry select_product insert_row).
Abbreviation insert_product := (insert_product select_product insert_row).

Lemma retry_raises attempts (w : W) copy e :
  snd (retry attempts w copy) = Raise e →
  e = Failure "Failed to insert product after 3 attempts".
Proof.
  revert w. induction attempts as [|k IH]; intros w; simpl.
  - by intros [= <-].
  - destruct (attempt w copy) as [w' [id|e']]; [done|]. apply IH.
Qed.

Lemma retry_without_name attempts (w : W) copy :
  copy !! "product_name" = None →
  retry attempts w copy
  = (w, Raise (Failure "Failed to insert product after 3 attempts")).
Proof.
  intros Hname. induction attempts as [|k IH]; [done|].
  simpl. unfold Populate.attempt. by rewrite Hname.
Qed.

(** Whatever the database answers or raises, the only exception that
    leaves [insert_product] is the one raised after the third attempt.
    Without a [product_name] the three attempts fail before any request is
    sent.  And when the first request finds the product, its identifier is
    returned and nothing is inserted. *)
Theorem insert_product_outcomes (w : W) (product_info : gmap string scalar) :
  (∀ e, snd (insert_product w product_info) = Raise e →
        e = Failure "Failed to insert product after 3 attempts")
  ∧ (product_info !! "product_name" = None →
     insert_product w product_info
     = (w, Raise (Failure "Failed to insert product after 3 attempts")))
  ∧ (∀ name w1 row data id,
       product_info !! "product_name" = Some name →
       select_product w name = (w1, Ok (row :: data)) →
       row !! "product_id" = Some id →
       insert_product w product_info = (w1, Ok id)).
Proof.
  unfold Populate.insert_product. split_and!.
  - intros e. apply retry_raises.
  - intros Hname. apply retry_without_name. by rewrite lookup_delete_ne.
  - intros name w1 row data id Hname Hsel Hid. simpl. unfold Populate.attempt.
    rewrite lookup_delete_ne by done. rewrite Hname, Hsel. simpl. by rewrite Hid.
Qed.

End Products.

End PopulateProps.

(** ** The enrichment of a directory *)

Section IngestProps.

Import Enrich Spec Os Files Ingest.

Context {W : Type}.
Variable summarize_image : W → scalar → W * result scalar.
Variable summarize_text : W → value → W * result scalar.

Abbreviation enrich_file := (enrich_file summarize_image summarize_text).
Abbreviation enrich_partitions := (enrich_partitions summarize_image summarize_text).

Lemma changes_only_type (a b : obj) : changes_only a b → b !! "type" = a !! "type".
Proof. intros H. by destruct (H "type") as [?|[[? _]|[? _]]]. Qed.

Lemma frame_of_trans (d1 d2 d3 : list obj) :
  frame_of d1 d2 → frame_of d2 d3 → frame_of d1 d3.
Proof.
  intros [Hlen1 H1] [Hlen2 H2]. split; [congruence|].
  intros i a Ha. destruct (H1 i a Ha) as (b & Hb & Hab & Hsame1).
  destruct (H2 i b Hb) as (c & Hc & Hbc & Hsame2).
  pose proof (changes_only_type a b Hab) as Hty.
  assert (Hp : ∀ p, has_type p b = has_type p a).
  { intros p. unfold has_type. by rewrite Hty. }
  exists c. split_and!; [done| |].
  - intros k. destruct (Hbc k) as [Hk|[[-> Hi]|[-> Ht]]].
    + rewrite Hk. apply Hab.
    + right. left. by rewrite <- Hp.
    + right. right. by rewrite <- Hp.
  - intros Hi Ht. rewrite Hsame2, Hsame1; by rewrite ?Hp.
Qed.

Lemma file_frame_refl x : file_frame x x.
Proof. destruct x as [[data|e]|]; simpl; [apply frame_of_refl|done|done]. Qed.

Lemma file_frame_trans x y z : file_frame x y → file_frame y z → file_frame x z.
Proof.
  destruct x as [[d1|e1]|], y as [[d2|e2]|], z as [[d3|e3]|]; simpl; try done.
  - apply frame_of_trans.
  - congruence.
Qed.

Lemma enrich_file_frame (s : state W) (json_file path : string) :
  file_frame (disk s !! path) (disk (enrich_file s json_file) !! path)
  ∧ (length (errors (enrich_file s json_file)) ≤ length (errors s) + 1)%nat.
Proof.
  unfold Ingest.enrich_file.
  destruct (disk s !! json_file) as [[data|e]|] eqn:Hfile; simpl;
    try (split; [apply file_frame_refl|rewrite length_app; simpl; lia]).
  split.
  - destruct (decide (json_file = path)) as [->|Hne].
    + rewrite lookup_insert_eq, Hfile. simpl.
      destruct (enrich_frame_run summarize_image summarize_text data (world s))
        as [_ Hdumps].
      unfold file_content.
      destruct (last (dumps _)) as [d|] eqn:Hlast; simpl.
      * apply Hdumps. apply last_Some in Hlast as [l' ->].
        apply elem_of_app. right. by apply list_elem_of_singleton.
      * apply frame_of_refl.
    + rewrite lookup_insert_ne by done. apply file_frame_refl.
  - destruct (snd _); [rewrite length_app; simpl|]; lia.
Qed.

Lemma fold_enrich_file (files : list string) :
  ∀ s : state W,
    (∀ path, file_frame (disk s !! path)
                        (disk (fold_left enrich_file files s) !! path))
    ∧ (length (errors (fold_left enrich_file files s))
       ≤ length (errors s) + length files)%nat.
Proof.
  induction files as [|f rest IH]; intros s.
  - simpl. split; [intros; apply file_frame_refl|lia].
  - cbn [fold_left]. destruct (IH (enrich_file s f)) as [Hframe Hlen]. split.
    + intros path. eapply file_frame_trans; [|apply Hframe].
      apply enrich_file_frame.
    + destruct (enrich_file_frame s f "") as [_ H1]. simpl. lia.
Qed.


End IngestProps.

(** ** The other functions on samples *)


Lemma get_files_with_extension_paths_witness :
  Files.get_files_with_extension ["a.pdf"; "notes.txt"; "b.pdf"; "c.PDF"]
    "input" ".pdf" = ["input/a.pdf"; "input/b.pdf"]
  ∧ Forall (λ p, Files.pdf_path "input" p = p) ["input/a.pdf"; "input/b.pdf"].
Proof.
  destruct (get_files_with_extension_paths
              ["a.pdf"; "notes.txt"; "b.pdf"; "c.PDF"] "input" ".pdf")
    as [_ H].
  - repeat constructor.
  - split; [reflexivity|].
    eapply Forall_impl; [exact H|]. by intros p [_ ?].
Defined.

Lemma cleanup_new_names_witness :
  Files.new_name "manual.json.json" = "manual.json"
  ∧ Files.new_name "manual.json.json.json" = "manual.json.json".
Proof.
  destruct (cleanup_new_names "manual" eq_refl) as (_ & H1 & _ & H2).
  split; [exact H1 | exact H2].
Defined.

Lemma cleanup_file_extensions_moves_witness :
  ∃ fs', Files.cleanup_file_extensions OtherSamples.chunk_dir
           ["guide.json.json"; "notes.txt"; "manual.json.json"] = (fs', None)
    ∧ fs' !! "guide.json" = Some 75%nat
    ∧ fs' !! "manual.json" = Some 120%nat
    ∧ fs' !! "manual.json.json" = None
    ∧ fs' !! "notes.txt" = Some 9%nat.
Proof.
  destruct (cleanup_file_extensions_moves OtherSamples.chunk_dir
              ["guide.json.json"; "notes.txt"; "manual.json.json"])
    as (fs' & Hrun & Hmoved & Hkept).
  - apply (bool_decide_unpack _). vm_compute. exact I.
  - intros f Hf. simpl in Hf.
    apply elem_of_cons in Hf as [->|Hf]; [by eexists|].
    apply list_elem_of_singleton in Hf as ->. by eexists.
  - apply (bool_decide_unpack _). vm_compute. exact I.
  - intros f Hf. simpl in Hf.
    apply elem_of_cons in Hf as [->|Hf]; [reflexivity|].
    apply list_elem_of_singleton in Hf as ->. reflexivity.
  - exists fs'. split; [exact Hrun|].
    destruct (Hmoved "guide.json.json") as [Hg _].
    { apply (bool_decide_unpack _). vm_compute. exact I. }
    destruct (Hmoved "manual.json.json") as [Hm Hm'].
    { apply (bool_decide_unpack _). vm_compute. exact I. }
    split_and!.
    + exact Hg.
    + exact Hm.
    + exact Hm'.
    + apply (Hkept "notes.txt");
        apply (bool_decide_unpack _); vm_compute; exact I.
Defined.

Lemma cleanup_file_extensions_overwrites_witness :
  ∃ fs', Files.cleanup_file_extensions OtherSamples.clash_dir
           ["manual.json"; "manual.json.json"] = (fs', None)
    ∧ fs' !! "manual.json" = Some 120%nat
    ∧ size fs' = 1%nat.
Proof.
  destruct (cleanup_file_extensions_overwrites OtherSamples.clash_dir "manual"
              120%nat 40%nat eq_refl eq_refl eq_refl)
    as (fs' & Hrun & Hnew & _ & Hsize).
  exists fs'. split; [exact Hrun|]. split; [exact Hnew|].
  rewrite Hsize. reflexivity.
Defined.

Lemma process_documents_in_batches_all_witness :
  Populate.process_documents_in_batches OtherSamples.count_documents 0%nat
    [1; 2; 3; 4; 5; 6; 7]%nat
  = ((7%nat, [(1, 3); (2, 3); (3, 3)]%nat), None).
Proof.
  rewrite (process_documents_in_batches_all OtherSamples.count_documents 0%nat
             [1; 2; 3; 4; 5; 6; 7]%nat (λ _ _, eq_refl)).
  reflexivity.
Defined.

Lemma load_documents_first_per_source_witness :
  Populate.load_documents OtherSamples.loaded
  = Ok [OtherSamples.page "data/a.pdf" "a, page 1";
        OtherSamples.page "data/b.pdf" "b, page 1"].
Proof.
  destruct (load_documents_first_per_source OtherSamples.loaded)
    as (out & Hrun & _).
  - repeat constructor; by eexists.
  - rewrite Hrun. revert Hrun. vm_compute. by intros [= <-].
Defined.
